(** * qubee-nlp: a shallow embedding of the Afaan Oromoo text pipeline

    The development follows the Python package [qubee_nlp]: the alphabet,
    the stemmer, the stop-word filter, the POS tagger, the tokenizer, the
    syllabifier and the normalizer.  A Python [str] is a list of Unicode
    code points; dictionaries whose iteration order matters are association
    lists, the others are [gmap]s; sets are [gset]s.

    Part I holds the model, one module per source file.  Part II holds the
    properties, one module of facts per component. *)

From Stdlib Require Import NArith String Ascii List Lia Bool.
From stdpp Require Import base decidable option list sets gmap strings sorting.
Import ListNotations.

(** * Part I: the model *)

(** ** Python strings *)

(** A string is the list of its code points. *)
Definition str : Type := list N.

(** The code points of an ASCII literal. *)
Definition cps (s : string) : str := map N_of_ascii (list_ascii_of_string s).
Arguments cps s%_string.

Module Py.

(** [c in range(lo, hi + 1)] on code points. *)
Definition between (lo hi c : N) : bool := ((lo <=? c) && (c <=? hi))%N.

Definition is_ascii (c : N) : bool := (c <? 128)%N.

(** [str.isspace] for one character, which is also what [\s] matches in a
    [str] pattern: the characters of bidirectional type WS, B or S and of
    category Zs. *)
Definition isspace (c : N) : bool :=
  between 9 13 c || between 28 31 c || (c =? 32)%N || (c =? 0x85)%N
  || (c =? 0xA0)%N || (c =? 0x1680)%N || between 0x2000 0x200A c
  || (c =? 0x2028)%N || (c =? 0x2029)%N || (c =? 0x202F)%N
  || (c =? 0x205F)%N || (c =? 0x3000)%N.

(** [[0-9]], [[A-Z]], [[a-z]]. *)
Definition ascii_digit (c : N) : bool := between 48 57 c.
Definition ascii_upper_letter (c : N) : bool := between 65 90 c.
Definition ascii_lower_letter (c : N) : bool := between 97 122 c.
Definition ascii_letter (c : N) : bool :=
  ascii_upper_letter c || ascii_lower_letter c.

(** [str.upper] and [str.lower] on one ASCII character. *)
Definition ascii_upper (c : N) : N :=
  if ascii_lower_letter c then (c - 32)%N else c.
Definition ascii_lower (c : N) : N :=
  if ascii_upper_letter c then (c + 32)%N else c.

Definition is_nil {A} (l : list A) : bool :=
  match l with [] => true | _ => false end.

Definition str_eqb (s t : str) : bool := bool_decide (s = t).

(** [c in s] for a single character [c]. *)
Definition contains (c : N) (s : str) : bool := existsb (N.eqb c) s.

(** [s.lstrip()], [s.rstrip()] and [s.strip()]. *)
Fixpoint lstrip (s : str) : str :=
  match s with
  | [] => []
  | c :: s' => if isspace c then lstrip s' else s
  end.

Fixpoint rstrip (s : str) : str :=
  match s with
  | [] => []
  | c :: s' =>
      let r := rstrip s' in
      if isspace c && is_nil r then [] else c :: r
  end.

Definition strip (s : str) : str := rstrip (lstrip s).

(** [w.endswith(suf)] and [w.startswith(pre)]. *)
Definition endswith (w suf : str) : bool := bool_decide (suf `suffix_of` w).
Definition startswith (w pre : str) : bool := bool_decide (pre `prefix_of` w).

(** [w[:-k]].  Python reads [w[:-0]] as [w[:0]], the empty string. *)
Definition slice_to_neg (k : nat) (w : str) : str :=
  match k with
  | 0 => []
  | S _ => take (length w - k) w
  end.

(** [w[a:b]] for [0 <= a] and [0 <= b]. *)
Definition slice (a b : nat) (w : str) : str := take (b - a) (drop a w).

(** [w.split(sep)] for a one-character separator: empty parts are kept. *)
Fixpoint split (sep : N) (w : str) : list str :=
  match w with
  | [] => [[]]
  | c :: w' =>
      if (c =? sep)%N then [] :: split sep w'
      else match split sep w' with
           | p :: ps => (c :: p) :: ps
           | [] => [[c]]
           end
  end.

(** [s.replace(old, new)]: the occurrences of [old] are replaced from left
    to right, without overlap.  [skip] counts the characters of the
    occurrence just replaced that are still to be passed over. *)
Fixpoint replace_from (old new : str) (skip : nat) (s : str) : str :=
  match s with
  | [] => []
  | c :: s' =>
      match skip with
      | S k => replace_from old new k s'
      | 0 =>
          if startswith s old
          then new ++ replace_from old new (length old - 1) s'
          else c :: replace_from old new 0 s'
      end
  end.

Definition replace (old new : str) (s : str) : str :=
  match old with
  | [] => new ++ flat_map (fun c => c :: new) s
  | _ :: _ => replace_from old new 0 s
  end.

(** [sep.join(parts)] for the empty separator. *)
Definition join (parts : list str) : str := concat parts.

End Py.

(** ** The Unicode database

    [unicodedata], [str.upper], [str.lower] and the character classes of
    [re] are the interpreter's, not the package's.  The model takes them as
    an interface, together with the facts about ASCII text that the proofs
    use; each of those facts holds of CPython's tables. *)

Class Unicode : Type := {
  (** [unicodedata.normalize("NFC" | "NFD" | "NFKD", s)] *)
  nfc : str -> str;
  nfd : str -> str;
  nfkd : str -> str;
  (** [s.upper()] and [s.lower()] *)
  upper : str -> str;
  lower : str -> str;
  (** [\d] in a [str] pattern: general category Nd *)
  re_digit : N -> bool;
  (** [\w] in a [str] pattern *)
  re_word : N -> bool;
  (** [ch.isdigit()] *)
  isdigit : N -> bool;
  (** [unicodedata.category(c) == "Mn"] *)
  category_Mn : N -> bool;
  (** [bool(unicodedata.combining(c))] *)
  combining : N -> bool;

  nfc_ascii : forall s, forallb Py.is_ascii s = true -> nfc s = s;
  nfd_ascii : forall s, forallb Py.is_ascii s = true -> nfd s = s;
  nfkd_ascii : forall s, forallb Py.is_ascii s = true -> nfkd s = s;
  upper_ascii :
    forall s, forallb Py.is_ascii s = true -> upper s = map Py.ascii_upper s;
  lower_ascii :
    forall s, forallb Py.is_ascii s = true -> lower s = map Py.ascii_lower s;
  re_digit_ascii :
    forall c, Py.is_ascii c = true -> re_digit c = Py.ascii_digit c;
  re_word_ascii :
    forall c, Py.is_ascii c = true ->
      re_word c = Py.ascii_letter c || Py.ascii_digit c || (c =? 95)%N;
  isdigit_ascii :
    forall c, Py.is_ascii c = true -> isdigit c = Py.ascii_digit c;
  category_Mn_ascii :
    forall c, Py.is_ascii c = true -> category_Mn c = false;
  combining_ascii :
    forall c, Py.is_ascii c = true -> combining c = false;
  (** no decimal digit is white space *)
  re_digit_not_space :
    forall c, re_digit c = true -> Py.isspace c = false;
}.

(** Every ASCII code point is one of the first 128 naturals, so a boolean
    fact about ASCII characters is settled by running it on all of them. *)
Lemma ascii_forall (P : N -> bool) :
  forallb P (map N.of_nat (seq 0 128)) = true ->
  forall c, Py.is_ascii c = true -> P c = true.
Proof.
  intros Hall c Hc. unfold Py.is_ascii in Hc. apply N.ltb_lt in Hc.
  rewrite forallb_forall in Hall. apply Hall.
  apply in_map_iff. exists (N.to_nat c). split; [apply N2Nat.id|].
  apply in_seq. lia.
Qed.

(** A finite fragment of the tables, for running the model: ASCII, the ten
    acute vowels of Latin-1 with their canonical decompositions, and the
    combining diacritical marks block.  It agrees with CPython on ASCII
    text and on text in which U+0301 follows vowels only. *)
Module Fragment.

Definition acute_vowels : list (N * N) :=
  [(0xC1, 0x41); (0xC9, 0x45); (0xCD, 0x49); (0xD3, 0x4F); (0xDA, 0x55);
   (0xE1, 0x61); (0xE9, 0x65); (0xED, 0x69); (0xF3, 0x6F); (0xFA, 0x75)]%N.

Definition decompose (c : N) : str :=
  match find (fun p => (fst p =? c)%N) acute_vowels with
  | Some (_, b) => [b; 0x301%N]
  | None => [c]
  end.

Definition decomposed (s : str) : str := flat_map decompose s.

Fixpoint compose (s : str) : str :=
  match s with
  | [] => []
  | b :: s' =>
      match s' with
      | m :: s'' =>
          if (m =? 0x301)%N then
            match find (fun p => (snd p =? b)%N) acute_vowels with
            | Some (a, _) => a :: compose s''
            | None => b :: compose s'
            end
          else b :: compose s'
      | [] => [b]
      end
  end.

Definition composed (s : str) : str := compose (decomposed s).

Definition is_lower_acute (c : N) : bool :=
  existsb (N.eqb c) [0xE1; 0xE9; 0xED; 0xF3; 0xFA]%N.
Definition is_upper_acute (c : N) : bool :=
  existsb (N.eqb c) [0xC1; 0xC9; 0xCD; 0xD3; 0xDA]%N.

Definition upper1 (c : N) : N :=
  if is_lower_acute c then (c - 32)%N else Py.ascii_upper c.
Definition lower1 (c : N) : N :=
  if is_upper_acute c then (c + 32)%N else Py.ascii_lower c.

Definition word1 (c : N) : bool :=
  Py.ascii_letter c || Py.ascii_digit c || (c =? 95)%N
  || is_lower_acute c || is_upper_acute c.

Definition mark (c : N) : bool := Py.between 0x300 0x36F c.

Lemma decompose_ascii c : Py.is_ascii c = true -> decompose c = [c].
Proof.
  intros Hc.
  apply (bool_decide_eq_true_1 (decompose c = [c])).
  revert c Hc. apply ascii_forall. vm_compute. reflexivity.
Qed.

Lemma decomposed_ascii s : forallb Py.is_ascii s = true -> decomposed s = s.
Proof.
  induction s as [|c s IH]; simpl; [reflexivity|].
  intros [Hc Hs]%andb_true_iff.
  rewrite (decompose_ascii c Hc), (IH Hs). reflexivity.
Qed.

Lemma compose_ascii s : forallb Py.is_ascii s = true -> compose s = s.
Proof.
  induction s as [|b s IH]; [reflexivity|].
  intros [Hb Hs]%andb_true_iff. specialize (IH Hs).
  destruct s as [|m s]; [reflexivity|].
  cbn [compose]. cbn [compose] in IH.
  assert ((m =? 0x301)%N = false) as ->.
  { simpl in Hs. apply andb_true_iff in Hs as [Hm _].
    unfold Py.is_ascii in Hm. apply N.ltb_lt in Hm. apply N.eqb_neq. lia. }
  f_equal. exact IH.
Qed.

Lemma composed_ascii s : forallb Py.is_ascii s = true -> composed s = s.
Proof.
  intros Hs. unfold composed. rewrite (decomposed_ascii s Hs).
  apply compose_ascii, Hs.
Qed.

Lemma upper1_ascii s :
  forallb Py.is_ascii s = true -> map upper1 s = map Py.ascii_upper s.
Proof.
  induction s as [|c s IH]; simpl; [reflexivity|].
  intros [Hc Hs]%andb_true_iff. rewrite (IH Hs). f_equal.
  apply (bool_decide_eq_true_1 (upper1 c = Py.ascii_upper c)).
  revert c Hc. apply ascii_forall. vm_compute. reflexivity.
Qed.

Lemma lower1_ascii s :
  forallb Py.is_ascii s = true -> map lower1 s = map Py.ascii_lower s.
Proof.
  induction s as [|c s IH]; simpl; [reflexivity|].
  intros [Hc Hs]%andb_true_iff. rewrite (IH Hs). f_equal.
  apply (bool_decide_eq_true_1 (lower1 c = Py.ascii_lower c)).
  revert c Hc. apply ascii_forall. vm_compute. reflexivity.
Qed.

Lemma word1_ascii c :
  Py.is_ascii c = true ->
  word1 c = Py.ascii_letter c || Py.ascii_digit c || (c =? 95)%N.
Proof.
  intros Hc.
  apply (bool_decide_eq_true_1
           (word1 c = Py.ascii_letter c || Py.ascii_digit c || (c =? 95)%N)).
  revert c Hc. apply ascii_forall. vm_compute. reflexivity.
Qed.

Lemma mark_ascii c : Py.is_ascii c = true -> mark c = false.
Proof.
  intros Hc. apply (bool_decide_eq_true_1 (mark c = false)).
  revert c Hc. apply ascii_forall. vm_compute. reflexivity.
Qed.

Lemma ascii_digit_not_space c :
  Py.ascii_digit c = true -> Py.isspace c = false.
Proof.
  intros Hd.
  assert (Py.is_ascii c = true) as Hc.
  { unfold Py.ascii_digit, Py.between in Hd.
    apply andb_true_iff in Hd as [_ Hd]. apply N.leb_le in Hd.
    apply N.ltb_lt. lia. }
  pose proof (ascii_forall
    (fun c => implb (Py.ascii_digit c) (negb (Py.isspace c)))
    eq_refl c Hc) as H.
  simpl in H. rewrite Hd in H. simpl in H.
  apply negb_true_iff in H. exact H.
Qed.

#[export] Instance tables : Unicode := {|
  nfc := composed;
  nfd := decomposed;
  nfkd := decomposed;
  upper := map upper1;
  lower := map lower1;
  re_digit := Py.ascii_digit;
  re_word := word1;
  isdigit := Py.ascii_digit;
  category_Mn := mark;
  combining := mark;
  nfc_ascii := composed_ascii;
  nfd_ascii := decomposed_ascii;
  nfkd_ascii := decomposed_ascii;
  upper_ascii := upper1_ascii;
  lower_ascii := lower1_ascii;
  re_digit_ascii := fun c _ => eq_refl;
  re_word_ascii := word1_ascii;
  isdigit_ascii := fun c _ => eq_refl;
  category_Mn_ascii := mark_ascii;
  combining_ascii := mark_ascii;
  re_digit_not_space := ascii_digit_not_space;
|}.

End Fragment.

(** ** alphabet.py *)

Module QubeeAlphabet.

Definition CONSONANTS : gset str :=
  list_to_set (map cps
    ["B"; "C"; "D"; "F"; "G"; "H"; "J"; "K"; "L"; "M";
     "N"; "P"; "Q"; "R"; "S"; "T"; "V"; "W"; "X"; "Y"; "Z"]%string).

Definition VOWELS : gset str :=
  list_to_set (map cps ["A"; "E"; "I"; "O"; "U"]%string).

(** The accented vowels and their base vowels. *)
Definition DIACRITICS : gmap N N :=
  list_to_map
    [(0xC1, 0x41); (0xC9, 0x45); (0xCD, 0x49); (0xD3, 0x4F); (0xDA, 0x55);
     (0xE1, 0x61); (0xE9, 0x65); (0xED, 0x69); (0xF3, 0x6F); (0xFA, 0x75)]%N.

Section WithUnicode.
Context `{U : Unicode}.

(** [char.upper() in cls.CONSONANTS]; a character is never the empty
    string here, so the guard [if char] is always taken. *)
Definition is_consonant (char : N) : bool :=
  bool_decide (upper [char] ∈ CONSONANTS).

Definition is_vowel (char : N) : bool :=
  bool_decide (upper [char] ∈ VOWELS).

End WithUnicode.

(** [''.join(cls.DIACRITICS.get(c, c) for c in text)] *)
Definition normalize_diacritics (text : str) : str :=
  map (fun c => default c (DIACRITICS !! c)) text.

End QubeeAlphabet.

(** ** stemmer.py *)

Module QubeeStemmer.

(** [self.suffixes], in the order of the source. *)
Definition suffixes : list (str * str) :=
  map (fun s => (cps s, cps ""))
    ["KEESSATTI"; "KOOTTI"; "KOOTA";
     "TOOTA"; "OOTA"; "OTA";
     "NEENI"; "ETTI"; "ANI"; "ANII";
     "ACHUU"; "ITAN"; "ATAN";
     "WWAN"; "UU";
     "ICHA"; "ICHAA";
     "DHA"; "TA"; "KEE";
     "SA"; "SAA";
     "TIIN"; "TTI";
     "TII"; "UMMAA";
     "INA"; "AA"; "OO";
     "I"]%string.

Definition irregular_forms : gmap str str :=
  list_to_map
    [(cps "DHUFAN", cps "DHUF");
     (cps "DHAQAN", cps "DHAQ");
     (cps "BEEKAN", cps "BEEK");
     (cps "JEDHAN", cps "JEDH");
     (cps "QABAN", cps "QAB");
     (cps "ARGATAN", cps "ARGAT");
     (cps "BARATAN", cps "BARAT");
     (cps "DHIISAN", cps "DHIIS");
     (cps "FIDAN", cps "FID");
     (cps "KENNAN", cps "KENN")].

Definition verb_roots : gset str :=
  list_to_set (map cps
    ["DHAQ"; "BEEK"; "JEDH"; "QAB"; "ARGAT"; "BARAT";
     "DHIIS"; "FID"; "KENN"; "BAR"; "HIM"]%string).

(** [sorted(l, key=lambda x: -len(x[0]))]: Python's sort is stable, so
    entries of equal length keep their order.  Insertion from the right
    puts an entry before the entries of the same length that follow it. *)
Fixpoint insert_by_len (x : str * str) (l : list (str * str))
  : list (str * str) :=
  match l with
  | [] => [x]
  | y :: l' =>
      if length x.1 <? length y.1 then y :: insert_by_len x l'
      else x :: y :: l'
  end.

Definition sorted_by_len (l : list (str * str)) : list (str * str) :=
  foldr insert_by_len [] l.

(** The [for] loop of [stem]: the first entry whose suffix ends the word
    and is shorter than it is applied, and the loop breaks. *)
Fixpoint strip_first (sufs : list (str * str)) (word : str) : str :=
  match sufs with
  | [] => word
  | (suffix, replacement) :: rest =>
      if Py.endswith word suffix && (length suffix <? length word)
      then Py.slice_to_neg (length suffix) word ++ replacement
      else strip_first rest word
  end.

Section WithUnicode.
Context `{U : Unicode}.

Definition stem (word : str) : str :=
  let word := QubeeAlphabet.normalize_diacritics (upper word) in
  match irregular_forms !! word with
  | Some root => root
  | None =>
      let original := word in
      let word := strip_first (sorted_by_len suffixes) word in
      if length word <? 2 then original else word
  end.

End WithUnicode.

End QubeeStemmer.

(** ** stopwords.py *)

Module StopWords.

Definition _load_default_stopwords : gset str :=
  list_to_set (map cps
    ["WAA"; "WAAEE"; "WAAEEN";
     "ANI"; "ATE"; "ISA"; "ISI"; "ISAN";
     "FI"; "YOO"; "SILAA"; "ERGASII";
     "IRRA"; "KEESSAA"; "GADII";
     "TAA"; "DHA"; "JIRA";
     "AMMA"; "AMMAA"; "SANA";
     "EENYUU"; "MAAL"; "EESSAA";
     "KUN"; "SUN"; "KANA";
     "HAA"; "TAY"; "NU"; "NUU"]%string).

(** [self.categories], by category name. *)
Definition categories : list (string * gset str) :=
  map (fun p => (p.1, list_to_set (map cps p.2)))
    [("pronouns",
      ["ANI"; "ATE"; "ISAN"; "ISA"; "ISI"; "ISII"; "NU"; "NUU";
       "ISIN"; "KEENYA"; "KEENYAA"; "KEE"; "KIYYA"; "SANI"; "SAN"]);
     ("conjunctions",
      ["FI"; "YOO"; "SILAA"; "YEROO"; "ERGASII";
       "HAA"; "TAY"; "AKKAS"; "AKKANA"]);
     ("prepositions",
      ["IRRA"; "IRRAA"; "IRRAAN"; "IRRAATTI";
       "KEESSAA"; "KEESSATTI"; "GADII"; "GADI"; "WAAJIN"; "FAANAA"]);
     ("auxiliary_verbs",
      ["TAA"; "TAUU"; "DHA"; "DHAUU"; "JIRA"; "JIRUU"]);
     ("demonstratives",
      ["KUN"; "SUN"; "KANA"; "SANA"; "AKKANA"; "AKKAS"]);
     ("question_words",
      ["EENYUU"; "MAAL"; "EESSAA"; "YOO"]);
     ("adverbs",
      ["AMMA"; "AMMAA"; "ACHII"; "ASI"; "DHUGAA"; "DHUGAATTI"])]%string.

(** The set a fresh [StopWords(include_common)] holds. *)
Definition initial (include_common : bool) : gset str :=
  if include_common
  then foldl (fun acc p => acc ∪ p.2) _load_default_stopwords categories
  else _load_default_stopwords.

(** [_get_variants]: the word without each of the listed endings, in the
    order the source appends them. *)
Definition variant_suffixes : list str :=
  map cps ["TI"; "TII"; "N"; "NI"; "F"; "FI"; "S"; "SI"]%string.

Definition _get_variants (word : str) : list str :=
  flat_map
    (fun suf =>
       if Py.endswith word suf && (length suf <? length word)
       then [Py.slice_to_neg (length suf) word] else [])
    variant_suffixes
  ++ (if Py.endswith word (cps "KEE") then [Py.slice_to_neg 3 word] else [])
  ++ (if Py.endswith word (cps "SAA") then [Py.slice_to_neg 3 word] else [])
  ++ (if Py.endswith word (cps "SA") then [Py.slice_to_neg 2 word] else []).

Section WithUnicode.
Context `{U : Unicode}.

(** [stopwords] is the instance's current set: [add_stopwords] and
    [remove_stopwords_set] change it between calls. *)
Definition is_stopword (stopwords : gset str) (word : str)
    (check_variants : bool) : bool :=
  if Py.is_nil word then false
  else
    let w := upper word in
    if bool_decide (w ∈ stopwords) then true
    else if check_variants
    then existsb (fun v => bool_decide (v ∈ stopwords)) (_get_variants w)
    else false.

(** [[w for w in words if not self.is_stopword(w, check_variants)]] *)
Definition remove_stopwords (stopwords : gset str) (words : list str)
    (check_variants : bool) : list str :=
  List.filter (fun w => negb (is_stopword stopwords w check_variants)) words.

Definition add_stopwords (stopwords : gset str) (words : list str)
  : gset str :=
  foldl (fun acc w => acc ∪ {[upper w]}) stopwords words.

Definition remove_stopwords_set (stopwords : gset str) (words : list str)
  : gset str :=
  foldl (fun acc w => acc ∖ {[upper w]}) stopwords words.

End WithUnicode.

End StopWords.

(** ** pos/tagsets.py *)

Module Tagsets.

Record tag_info : Type := { description : string; universal : string }.

Definition POS_TAGSET : gmap string tag_info :=
  list_to_map
    (map (fun p => (p.1.1, {| description := p.1.2; universal := p.2 |}))
    [("NN", "Common noun", "NOUN");
     ("NNC", "Count noun", "NOUN");
     ("NNM", "Mass noun", "NOUN");
     ("NPROP", "Proper noun", "NOUN");
     ("NPL", "Plural noun", "NOUN");
     ("PPER", "Personal pronoun", "PRON");
     ("PDEM", "Demonstrative pronoun", "PRON");
     ("PINT", "Interrogative pronoun", "PRON");
     ("PREL", "Relative pronoun", "PRON");
     ("POSS", "Possessive pronoun", "PRON");
     ("PREFL", "Reflexive pronoun", "PRON");
     ("VB", "Base form verb", "VERB");
     ("VBF", "Finite verb", "VERB");
     ("VBINF", "Infinitive verb", "VERB");
     ("VBIMP", "Imperative verb", "VERB");
     ("VBPART", "Participial verb", "VERB");
     ("VBCAUS", "Causative verb", "VERB");
     ("VBPASS", "Passive verb", "VERB");
     ("VBREFL", "Reflexive verb", "VERB");
     ("VBAUX", "Auxiliary verb", "VERB");
     ("JJ", "Adjective", "ADJ");
     ("JJC", "Comparative adjective", "ADJ");
     ("JJS", "Superlative adjective", "ADJ");
     ("JJNUM", "Numeral adjective", "ADJ");
     ("JJPOSS", "Possessive adjective", "ADJ");
     ("RB", "Adverb", "ADV");
     ("RBC", "Comparative adverb", "ADV");
     ("RBS", "Superlative adverb", "ADV");
     ("RBINT", "Interrogative adverb", "ADV");
     ("RBNEG", "Negative adverb", "ADV");
     ("DT", "Determiner", "DET");
     ("DTDEM", "Demonstrative determiner", "DET");
     ("DTINT", "Interrogative determiner", "DET");
     ("DTPOSS", "Possessive determiner", "DET");
     ("DTIND", "Indefinite determiner", "DET");
     ("IN", "Preposition", "ADP");
     ("POST", "Postposition", "ADP");
     ("CC", "Coordinating conjunction", "CONJ");
     ("CS", "Subordinating conjunction", "CONJ");
     ("RP", "Particle", "PRT");
     ("NEG", "Negative particle", "PRT");
     ("FOC", "Focus particle", "PRT");
     ("Q", "Question particle", "PRT");
     ("UH", "Interjection", "INTJ");
     ("CD", "Cardinal number", "NUM");
     ("OD", "Ordinal number", "NUM");
     ("FW", "Foreign word", "X");
     ("SYM", "Symbol", "X");
     ("LS", "List item marker", "X");
     (".", "Sentence-final punctuation", "PUNC");
     (",", "Comma", "PUNC");
     (":", "Colon", "PUNC");
     (";", "Semicolon", "PUNC");
     ("``", "Opening quote", "PUNC");
     ("''", "Closing quote", "PUNC");
     ("(", "Opening parenthesis", "PUNC");
     (")", "Closing parenthesis", "PUNC")]%string).

(** The two suffix dictionaries are iterated by the tagger, in insertion
    order: association lists. *)
Definition VERB_SUFFIXES : list (str * string) :=
  [(cps "uu", "VBINF"); (cps "aa", "VBF"); (cps "ee", "VBF");
   (cps "i", "VBIMP"); (cps "u", "VBPART"); (cps "si", "VBCAUS");
   (cps "am", "VBPASS"); (cps "at", "VBREFL")]%string.

Definition NOUN_SUFFIXES : list (str * string) :=
  [(cps "ii", "NPL"); (cps "ww", "NPL"); (cps "aa", "NN");
   (cps "oo", "NN"); (cps "uu", "NN")]%string.

Definition get_universal_tag (tag : string) : option string :=
  universal <$> POS_TAGSET !! tag.

(** [utag if utag else 'X']: [None] and the empty string are both false. *)
Definition map_to_universal (tag : string) : string :=
  match get_universal_tag tag with
  | Some EmptyString | None => "X"
  | Some utag => utag
  end.

End Tagsets.

(** ** pos/tagger.py *)

Module QubeePOSTagger.

Definition DEFAULT_TAG : string := "UNK".
Definition NUM_TAG : string := "NUM".
Definition PUNC_TAG : string := "PUNC".

Definition LEXICON : gmap str string :=
  list_to_map
    [(cps "guddaa", "ADJ"); (cps "xixiqqoo", "ADJ");
     (cps "waa'ee", "NOUN"); (cps "afaan", "NOUN"); (cps "biyya", "NOUN");
     (cps "ani", "PRON"); (cps "isin", "PRON")]%string.

Definition PREPOSITIONS : gset str :=
  list_to_set (map cps
    ["fi"; "yookiin"; "gara"; "jalatti"; "bira"; "keessa"; "alaa";
     "wajjin"; "malee"; "waa'ee"]%string).

Definition afaan_oromoo_numbers : gset str :=
  list_to_set (map cps
    ["tokko"; "lama"; "sadi"; "afur"; "shan"; "jahaa";
     "torba"; "saddeet"; "sagal"; "kudha"]%string).

(** The two words of the conjunction rule. *)
Definition conjunctions : gset str :=
  list_to_set (map cps ["fi"; "yookiin"]%string).

(** [string.punctuation]: the ASCII punctuation, code points 33-47, 58-64,
    91-96 and 123-126; and the same without the apostrophe,
    [string.punctuation.replace(apostrophe, empty)]. *)
Definition string_punctuation : str :=
  map N.of_nat (seq 33 15 ++ seq 58 7 ++ seq 91 6 ++ seq 123 4).

Definition punctuation_without_apostrophe : str :=
  Py.replace (cps "'") [] string_punctuation.

(** The first entry, in dictionary order, whose suffix ends the token. *)
Fixpoint first_suffix (table : list (str * string)) (t_lower : str)
  : option string :=
  match table with
  | [] => None
  | (suffix, tag) :: rest =>
      if Py.endswith t_lower suffix then Some tag
      else first_suffix rest t_lower
  end.

(** [re.fullmatch] of the letters, apostrophe and hyphen pattern. *)
Definition fullmatch_word (s : str) : bool :=
  negb (Py.is_nil s)
  && forallb (fun c => Py.ascii_letter c || (c =? 39)%N || (c =? 45)%N) s.

Section WithUnicode.
Context `{U : Unicode}.

(** The longest prefix of digits, and what follows it. *)
Fixpoint span_digits (s : str) : str * str :=
  match s with
  | [] => ([], [])
  | c :: s' =>
      if re_digit c
      then let '(d, r) := span_digits s' in (c :: d, r)
      else ([], s)
  end.

(** [re.fullmatch] of digits, optionally followed by a dot and digits. *)
Definition fullmatch_number (s : str) : bool :=
  let '(d, r) := span_digits s in
  negb (Py.is_nil d)
  && match r with
     | [] => true
     | c :: r' => (c =? 46)%N && negb (Py.is_nil r') && forallb re_digit r'
     end.

Definition _tag_token (token : str) : string :=
  let t := Py.strip token in
  if Py.is_nil t then DEFAULT_TAG
  else
    let t_lower := lower t in
    match LEXICON !! t_lower with
    | Some tag => tag
    | None =>
    if bool_decide (t_lower ∈ afaan_oromoo_numbers)
       || fullmatch_number t_lower
    then NUM_TAG
    else if forallb (fun c => Py.contains c punctuation_without_apostrophe)
                    t_lower
    then PUNC_TAG
    else if bool_decide (t_lower ∈ PREPOSITIONS) then "ADP"%string
    else if bool_decide (t_lower ∈ conjunctions) then "CONJ"%string
    else
    match first_suffix Tagsets.VERB_SUFFIXES t_lower with
    | Some tag => Tagsets.map_to_universal tag
    | None =>
    match first_suffix Tagsets.NOUN_SUFFIXES t_lower with
    | Some tag => Tagsets.map_to_universal tag
    | None =>
    if fullmatch_word t_lower then
      if Py.contains 45 t_lower || Py.contains 39 t_lower
      then "NOUN"%string
      else if Py.endswith t_lower (cps "aa")
              || Py.endswith t_lower (cps "oo")
              || Py.endswith t_lower (cps "uu")
      then "ADJ"%string
      else DEFAULT_TAG
    else "X"%string
    end
    end
    end.

Definition tag (tokens : list str) : list string :=
  if Py.is_nil tokens then [] else map _tag_token tokens.

End WithUnicode.

End QubeePOSTagger.

(** ** tokenizer.py *)

Module QubeeTokenizer.

(** The [ValueError]s the tokenizer raises, by message.  The first check of
    every method, [isinstance(text, str)], holds of every input of type
    [str]. *)
Inductive ValueError : Type :=
  | DigitsNotAllowed
  | InvalidToken (token : str)
  | NoValidTokens.

Inductive result (A : Type) : Type :=
  | Ok (a : A)
  | Raise (e : ValueError).
Arguments Ok {A} a.
Arguments Raise {A} e.

Record config : Type := { preserve_case : bool; strict : bool }.

(** The letters of [_word_pattern]: A-Z, a-z, and the Latin-1 letters
    U+00C0-U+00D6, U+00D8-U+00F6 and U+00F8-U+00FF. *)
Definition is_letter (c : N) : bool :=
  Py.ascii_letter c || Py.between 0xC0 0xD6 c || Py.between 0xD8 0xF6 c
  || Py.between 0xF8 0xFF c.

(** The apostrophe and the hyphen that may join two runs of letters. *)
Definition is_joiner (c : N) : bool := (c =? 39)%N || (c =? 45)%N.

Definition head_is_letter (s : str) : bool :=
  match s with
  | c :: _ => is_letter c
  | [] => false
  end.

(** [_word_pattern.finditer(text)] as the spans [(m.start(), m.end())] of
    its matches.  The pattern is a run of letters followed by any number of
    groups of one joiner and a run of letters; letters and joiners are
    disjoint classes, so the leftmost greedy match is found by one pass with
    one character of lookahead.  [i] is the offset of the head of [s];
    [cur] is the start of the match in progress. *)
Fixpoint scan (i : nat) (cur : option nat) (s : str) : list (nat * nat) :=
  match s with
  | [] =>
      match cur with
      | Some st => [(st, i)]
      | None => []
      end
  | c :: s' =>
      match cur with
      | None =>
          if is_letter c then scan (S i) (Some i) s' else scan (S i) None s'
      | Some st =>
          if is_letter c then scan (S i) cur s'
          else if is_joiner c && head_is_letter s' then scan (S i) cur s'
          else (st, i) :: scan (S i) None s'
      end
  end.

Definition finditer (text : str) : list (nat * nat) := scan 0 None text.

(** [m.group()] *)
Definition group (text : str) (m : nat * nat) : str := Py.slice m.1 m.2 text.

Definition findall (text : str) : list str := map (group text) (finditer text).

(** The set of abbreviations protected during sentence splitting. *)
Definition _abbreviations : gset str :=
  list_to_set (map cps ["DR."; "PROF."; "MR."; "MRS."; "MS."]%string).

Definition is_sentence_final (c : N) : bool :=
  (c =? 46)%N || (c =? 33)%N || (c =? 63)%N.

(** [re.split] on runs of white space that follow a full stop, an
    exclamation mark or a question mark.  [in_gap] holds while a matched run
    is passed over; [after_final] holds when the previous character is one
    of the three marks.  The head of the result is the piece in progress. *)
Fixpoint split_sentences (in_gap after_final : bool) (s : str) : list str :=
  match s with
  | [] => [[]]
  | c :: s' =>
      if Py.isspace c && in_gap then split_sentences true false s'
      else if Py.isspace c && after_final
      then [] :: split_sentences true false s'
      else
        match split_sentences false (is_sentence_final c) s' with
        | p :: ps => (c :: p) :: ps
        | [] => [[c]]
        end
  end.

Section WithUnicode.
Context `{U : Unicode}.

(** [re.search] of a digit *)
Definition has_digit (s : str) : bool := existsb re_digit s.

(** The characters kept after NFD are those that are not of category Mn or
    are one of the ten plain vowels. *)
Definition _strip_diacritics (text : str) : str :=
  List.filter
    (fun c => negb (category_Mn c) || Py.contains c (cps "aeiouAEIOU"))
    (nfd text).

Definition _normalize_token (cfg : config) (token : str) : str :=
  let token := _strip_diacritics token in
  if preserve_case cfg then token else upper token.

Definition _validate_strict_text (text : str) : result unit :=
  if has_digit text then Raise DigitsNotAllowed else Ok tt.

Definition _validate_strict_token (token : str) : result unit :=
  if has_digit token then Raise (InvalidToken token) else Ok tt.

(** The loop of [tokenize] over the matched tokens. *)
Fixpoint normalize_tokens (cfg : config) (tokens : list str)
  : result (list str) :=
  match tokens with
  | [] => Ok []
  | t :: ts =>
      match (if strict cfg then _validate_strict_token t else Ok tt) with
      | Raise e => Raise e
      | Ok _ =>
          match normalize_tokens cfg ts with
          | Raise e => Raise e
          | Ok normalized => Ok (_normalize_token cfg t :: normalized)
          end
      end
  end.

Definition tokenize (cfg : config) (text : str) : result (list str) :=
  if Py.is_nil (Py.strip text) then Ok []
  else
    match (if strict cfg then _validate_strict_text text else Ok tt) with
    | Raise e => Raise e
    | Ok _ =>
        let tokens := findall text in
        if strict cfg && Py.is_nil tokens then Raise NoValidTokens
        else normalize_tokens cfg tokens
    end.

(** One entry of [tokenize_with_positions]. *)
Record positioned : Type := {
  token : str;
  start : nat;
  end_ : nat;
  length_ : nat;
}.

(** The loop of [tokenize_with_positions] over the matches. *)
Fixpoint position_tokens (cfg : config) (text : str)
    (matches : list (nat * nat)) : result (list positioned) :=
  match matches with
  | [] => Ok []
  | m :: ms =>
      let tok := group text m in
      match (if strict cfg then _validate_strict_token tok else Ok tt) with
      | Raise e => Raise e
      | Ok _ =>
          match position_tokens cfg text ms with
          | Raise e => Raise e
          | Ok results =>
              Ok ({| token := _normalize_token cfg tok;
                     start := m.1;
                     end_ := m.2;
                     length_ := m.2 - m.1 |} :: results)
          end
      end
  end.

Definition tokenize_with_positions (cfg : config) (text : str)
  : result (list positioned) :=
  match (if strict cfg then _validate_strict_text text else Ok tt) with
  | Raise e => Raise e
  | Ok _ => position_tokens cfg text (finditer text)
  end.

(** The loop of [sentence_tokenize] that protects the abbreviations.  A
    Python set is iterated in an order the interpreter chooses; [order] is
    that order, a listing of [_abbreviations]. *)
Definition protect (cfg : config) (order : list str) (processed : str) : str :=
  foldl
    (fun protected abbr =>
       Py.replace (if preserve_case cfg then abbr else upper abbr)
                  (Py.replace (cps ".") (cps "<DOT>") abbr)
                  protected)
    processed order.

Definition sentence_tokenize (cfg : config) (order : list str) (text : str)
  : result (list str) :=
  if Py.is_nil (Py.strip text) then Ok []
  else
    match (if strict cfg then _validate_strict_text text else Ok tt) with
    | Raise e => Raise e
    | Ok _ =>
        let processed := _strip_diacritics text in
        let processed :=
          if preserve_case cfg then processed else upper processed in
        let protected := protect cfg order processed in
        let parts := split_sentences false false protected in
        Ok (List.filter (fun p => negb (Py.is_nil p))
              (map (fun p => Py.strip (Py.replace (cps "<DOT>") (cps ".") p))
                   parts))
    end.

End WithUnicode.

End QubeeTokenizer.

(** ** syllabifier.py *)

Module Syllabifier.

Definition digraphs : gset str :=
  list_to_set (map cps ["ch"; "dh"; "ny"; "ph"; "sh"]%string).

(** [re.fullmatch] of one or more ASCII letters, apostrophes and hyphens. *)
Definition _is_valid_word (word : str) : bool :=
  negb (Py.is_nil word)
  && forallb (fun c => Py.ascii_letter c || (c =? 39)%N || (c =? 45)%N) word.

(** The same with lower-case letters only: the check of strict mode. *)
Definition fullmatch_lower (word : str) : bool :=
  negb (Py.is_nil word)
  && forallb (fun c => Py.ascii_lower_letter c || (c =? 39)%N || (c =? 45)%N)
             word.

Section WithUnicode.
Context `{U : Unicode}.

(** NFKD, then [encode] to ASCII dropping what does not fit, then
    [lower]. *)
Definition _normalize_word (word : str) : str :=
  lower (List.filter Py.is_ascii (nfkd word)).

Definition _contains_digit (word : str) : bool := existsb isdigit word.

(** The onset loop: consonants are consumed one at a time, a digraph as
    one unit.  The result is the onset and the rest of the word. *)
Fixpoint take_onset (w : str) : str * str :=
  match w with
  | [] => ([], [])
  | c :: w' =>
      if QubeeAlphabet.is_consonant c then
        match w' with
        | d :: w'' =>
            if bool_decide ([c; d] ∈ digraphs)
            then let '(o, r) := take_onset w'' in (c :: d :: o, r)
            else let '(o, r) := take_onset w' in (c :: o, r)
        | [] => ([c], [])
        end
      else ([], w)
  end.

(** The nucleus loop: the vowels that follow. *)
Fixpoint take_nucleus (w : str) : str * str :=
  match w with
  | [] => ([], [])
  | c :: w' =>
      if QubeeAlphabet.is_vowel c
      then let '(v, r) := take_nucleus w' in (c :: v, r)
      else ([], w)
  end.

(** The coda: one consonant, when it ends the word or is followed by a
    consonant with which it forms no digraph. *)
Definition take_coda (w : str) : str * str :=
  match w with
  | c :: w' =>
      if QubeeAlphabet.is_consonant c then
        if Py.is_nil w'
           || match w' with
              | d :: _ =>
                  QubeeAlphabet.is_consonant d
                  && negb (bool_decide ([c; d] ∈ digraphs))
              | [] => false
              end
        then ([c], w')
        else ([], w)
      else ([], w)
  | [] => ([], [])
  end.

(** The [while i < n] loop.  [rest] is [word[i:]]; the result is the
    syllables and the part of the word left when the loop ends or breaks.
    Every turn that does not break consumes a vowel, so the loop runs at
    most [len(word)] times; [fuel] bounds the number of turns. *)
Fixpoint parse_loop (fuel : nat) (rest : str) (syllables : list str)
  : option (list str * str) :=
  match fuel with
  | 0 => None
  | S fuel' =>
      match rest with
      | [] => Some (syllables, [])
      | _ :: _ =>
          let '(onset, r1) := take_onset rest in
          let '(nucleus, r2) := take_nucleus r1 in
          if Py.is_nil nucleus then Some (syllables, r1)
          else
            let '(coda, r3) := take_coda r2 in
            parse_loop fuel' r3 (syllables ++ [onset ++ nucleus ++ coda])
      end
  end.

(** [syllables[-1] += leftover], or [syllables.append(leftover)] when
    there is no syllable yet. *)
Definition attach_leftover (syllables : list str) (leftover : str)
  : list str :=
  if Py.is_nil leftover then syllables
  else
    match last syllables with
    | Some s => removelast syllables ++ [s ++ leftover]
    | None => [leftover]
    end.

(** The parse of a word without separators, from the loop to the
    return. *)
Definition parse (word : str) : option (list str) :=
  '(syllables, leftover) ← parse_loop (S (length word)) word [];
  let syllables := attach_leftover syllables leftover in
  if negb (Py.str_eqb (Py.join syllables) word) then Some [word]
  else if Py.is_nil syllables then Some [word]
  else Some syllables.

(** [syllabify] calls itself on the parts of a word with separators;
    [fuel] bounds the depth of these calls. *)
Fixpoint syllabify (fuel : nat) (strict : bool) (word : str)
  : option (list str) :=
  match fuel with
  | 0 => None
  | S fuel' =>
      if Py.is_nil word || Py.is_nil (Py.strip word) then Some []
      else
        let word := _normalize_word word in
        if _contains_digit word then Some []
        else if negb (_is_valid_word word) then Some []
        else if strict && negb (fullmatch_lower word) then Some []
        else if Py.contains 39 word
        then @concat str <$> mapM (syllabify fuel' strict) (Py.split 39 word)
        else if Py.contains 45 word
        then @concat str <$> mapM (syllabify fuel' strict) (Py.split 45 word)
        else parse word
  end.

End WithUnicode.

End Syllabifier.

(** ** normalizer.py *)

Module TextNormalizer.

Record config : Type := {
  normalize_case : bool;
  preserve_case : bool;
  remove_diacritics : bool;
  remove_numbers : bool;
  remove_punctuation : bool;
  remove_special_chars : bool;
  standardize_punctuation : bool;
  remove_extra_spaces : bool;
}.

(** The defaults of [__init__]. *)
Definition default : config := {|
  normalize_case := true;
  preserve_case := false;
  remove_diacritics := false;
  remove_numbers := false;
  remove_punctuation := false;
  remove_special_chars := false;
  standardize_punctuation := true;
  remove_extra_spaces := true;
|}.

(** [_punct_map], in insertion order: the curly quotes, the dashes and the
    ellipsis.  Code point 34 is the straight double quote. *)
Definition _punct_map : list (str * str) :=
  [([0x2019], cps "'"); ([0x2018], cps "'");
   ([0x201C], [34]); ([0x201D], [34]);
   ([0x2013], cps "-"); ([0x2014], cps "-");
   ([0x2026], cps "...")]%N.

(** The class of [_zero_width_re]. *)
Definition is_zero_width (c : N) : bool :=
  (c =? 0x200B)%N || (c =? 0x200C)%N || (c =? 0x200D)%N.

(** [_multi_space_re.sub]: every maximal run of white space becomes one
    space.  [in_run] holds while a run is passed over. *)
Fixpoint collapse_spaces (in_run : bool) (s : str) : str :=
  match s with
  | [] => []
  | c :: s' =>
      if Py.isspace c
      then if in_run then collapse_spaces true s'
           else 32%N :: collapse_spaces true s'
      else c :: collapse_spaces false s'
  end.

Section WithUnicode.
Context `{U : Unicode}.

(** NFD, then the characters with no combining class. *)
Definition _strip_diacritics (text : str) : str :=
  List.filter (fun c => negb (combining c)) (nfd text).

Definition normalize (cfg : config) (text : str) : str :=
  if Py.is_nil text then []
  else
    (* 1. Unicode normalization *)
    let t := nfc text in
    (* 2. zero-width characters *)
    let t := map (fun c => if is_zero_width c then 32%N else c) t in
    (* 3. punctuation symbols *)
    let t :=
      if standardize_punctuation cfg
      then foldl (fun t kv => Py.replace kv.1 kv.2 t) t _punct_map
      else t in
    (* 4. Qubee diacritics *)
    let t := QubeeAlphabet.normalize_diacritics t in
    (* 5. combining accents *)
    let t := if remove_diacritics cfg then _strip_diacritics t else t in
    (* 6. numbers *)
    let t :=
      if remove_numbers cfg
      then List.filter (fun c => negb (re_digit c)) t else t in
    (* 7. punctuation, the apostrophe apart *)
    let t :=
      if remove_punctuation cfg
      then List.filter (fun c => negb (Py.contains c (cps ".,!?;:"))) t
      else t in
    (* 8. special characters *)
    let t :=
      if remove_special_chars cfg
      then List.filter
             (fun c => re_word c || Py.isspace c || (c =? 39)%N)
             (Py.replace (cps "-") (cps " ") t)
      else t in
    (* 9. case *)
    let t :=
      if normalize_case cfg && negb (preserve_case cfg) then upper t
      else t in
    (* 10. white space *)
    if remove_extra_spaces cfg then Py.strip (collapse_spaces false t)
    else t.

End WithUnicode.

End TextNormalizer.

(** * Part II: the properties *)

(** Closed decidable goals are settled by running their decision
    procedure. *)
Ltac decide_by_compute :=
  lazymatch goal with
  | |- _ /\ _ => split; decide_by_compute
  | |- _ = _ => vm_compute; reflexivity
  | |- _ => apply (bool_decide_unpack _); vm_compute; exact I
  end.

(** ** Facts about the string primitives *)

Module PyFacts.

Lemma endswith_suffix (w suf : str) :
  Py.endswith w suf = true <-> suf `suffix_of` w.
Proof. unfold Py.endswith. apply bool_decide_eq_true. Qed.

Lemma length_slice_to_neg (k : nat) (w : str) :
  0 < k -> length (Py.slice_to_neg k w) = length w - k.
Proof.
  intros Hk. destruct k as [|k]; [lia|]. unfold Py.slice_to_neg.
  rewrite length_take. lia.
Qed.

(** Two suffixes of one word that have the same length are equal. *)
Lemma suffix_same_length (s t w : str) :
  s `suffix_of` w -> t `suffix_of` w -> length s = length t -> s = t.
Proof.
  intros [k1 ->] [k2 E] Hlen.
  assert (length k1 = length k2) as Hk.
  { apply (f_equal length) in E. rewrite !length_app in E. lia. }
  apply app_inj_1 in E as [_ E]; [exact E | exact Hk].
Qed.

Lemma filter_id {A} (p : A -> bool) (l : list A) :
  forallb p l = true -> List.filter p l = l.
Proof.
  induction l as [|x l IH]; simpl; [done|].
  intros [-> Hl]%andb_true_iff. by rewrite IH.
Qed.

Lemma filter_filter_bool {A} (p q : A -> bool) (l : list A) :
  List.filter p (List.filter q l) = List.filter (fun x => q x && p x) l.
Proof.
  induction l as [|x l IH]; simpl; [done|].
  destruct (q x); simpl; [destruct (p x)|]; by rewrite IH.
Qed.

(** A boolean fact about the code points below [n] is settled by running
    it on all of them. *)
Lemma below_forall (n : nat) (P : N -> bool) :
  forallb P (map N.of_nat (seq 0 n)) = true ->
  forall c, (c < N.of_nat n)%N -> P c = true.
Proof.
  intros Hall c Hc. rewrite forallb_forall in Hall. apply Hall.
  apply in_map_iff. exists (N.to_nat c). split; [apply N2Nat.id|].
  apply in_seq. lia.
Qed.

Lemma strip_cons_space (c : N) (s : str) :
  Py.isspace c = true -> Py.strip (c :: s) = Py.strip s.
Proof. intros Hc. unfold Py.strip. cbn [Py.lstrip]. by rewrite Hc. Qed.

Lemma strip_cons_nonspace (c : N) (s : str) :
  Py.isspace c = false -> Py.strip (c :: s) = c :: Py.rstrip s.
Proof.
  intros Hc. unfold Py.strip. cbn [Py.lstrip]. rewrite Hc.
  cbn [Py.rstrip]. by rewrite Hc.
Qed.

(** [not s.strip()] holds exactly of the strings of white space. *)
Lemma strip_nil (s : str) :
  Py.is_nil (Py.strip s) = forallb Py.isspace s.
Proof.
  induction s as [|c s IH]; [reflexivity|]. cbn [forallb].
  destruct (Py.isspace c) eqn:Hc.
  - by rewrite strip_cons_space.
  - by rewrite strip_cons_nonspace.
Qed.

End PyFacts.

(** ** The stemmer *)

Module StemmerFacts.
Import QubeeStemmer.

(** The entries are compared by the length of their suffix. *)
Definition longer_first (a b : str * str) : Prop :=
  length b.1 <= length a.1.

Lemma insert_by_len_perm (x : str * str) (l : list (str * str)) :
  insert_by_len x l ≡ₚ x :: l.
Proof.
  induction l as [|y l IH]; simpl; [reflexivity|].
  destruct (length x.1 <? length y.1); [|reflexivity].
  rewrite IH. apply Permutation_swap.
Qed.

Lemma sorted_by_len_perm (l : list (str * str)) : sorted_by_len l ≡ₚ l.
Proof.
  induction l as [|x l IH]; simpl; [reflexivity|].
  rewrite insert_by_len_perm. by rewrite IH.
Qed.

Lemma insert_by_len_sorted (x : str * str) (l : list (str * str)) :
  StronglySorted longer_first l ->
  StronglySorted longer_first (insert_by_len x l).
Proof.
  induction 1 as [|y l Hl IH Hy]; simpl.
  - repeat constructor.
  - destruct (Nat.ltb_spec (length x.1) (length y.1)) as [Hlt|Hge].
    + constructor; [exact IH|].
      rewrite insert_by_len_perm. constructor; [|exact Hy].
      unfold longer_first. lia.
    + constructor; [by constructor|].
      constructor; [exact Hge|].
      eapply Forall_impl; [exact Hy|].
      unfold longer_first. intros z Hz. lia.
Qed.

Lemma sorted_by_len_sorted (l : list (str * str)) :
  StronglySorted longer_first (sorted_by_len l).
Proof.
  induction l as [|x l IH]; simpl; [constructor|].
  by apply insert_by_len_sorted.
Qed.

(** An entry applies to a word when its suffix ends the word and is
    shorter than the word: the test of the loop of [stem]. *)
Definition applies (word : str) (e : str * str) : Prop :=
  e.1 `suffix_of` word /\ length e.1 < length word.

Lemma applies_test (word : str) (e : str * str) :
  Py.endswith word e.1 && (length e.1 <? length word) = true
  <-> applies word e.
Proof.
  unfold applies.
  rewrite andb_true_iff, PyFacts.endswith_suffix, Nat.ltb_lt. tauto.
Qed.

(** On a list sorted by decreasing length the loop applies the longest
    entry that applies, and leaves the word alone when none does. *)
Lemma strip_first_sorted (l : list (str * str)) (word : str) :
  StronglySorted longer_first l ->
  (Forall (fun e => ~ applies word e) l /\ strip_first l word = word)
  \/ (exists e, e ∈ l /\ applies word e
        /\ Forall (fun e' => applies word e' -> length e'.1 <= length e.1) l
        /\ strip_first l word
           = Py.slice_to_neg (length e.1) word ++ e.2).
Proof.
  induction 1 as [|[suffix replacement] l Hl IH Hhd]; simpl.
  - left. split; [constructor | reflexivity].
  - destruct (Py.endswith word suffix && (length suffix <? length word))
      eqn:Htest.
    + right. exists (suffix, replacement).
      apply (applies_test word (suffix, replacement)) in Htest.
      split; [left|]. split; [exact Htest|]. split; [|reflexivity].
      constructor; [simpl; lia|].
      eapply Forall_impl; [exact Hhd|]. unfold longer_first. auto.
    + assert (~ applies word (suffix, replacement)) as Hno.
      { intros Ha. apply applies_test in Ha. simpl in Ha. congruence. }
      destruct IH as [[Hnone Heq]|(e & Hin & Ha & Hmax & Heq)].
      * left. split; [by constructor | exact Heq].
      * right. exists e. split; [by right|]. split; [exact Ha|].
        split; [|exact Heq]. constructor; [tauto | exact Hmax].
Qed.

(** The same for the loop of [stem], in terms of the table as written. *)
Lemma strip_first_suffixes (word : str) :
  (Forall (fun e => ~ applies word e) suffixes
   /\ strip_first (sorted_by_len suffixes) word = word)
  \/ (exists e, e ∈ suffixes /\ applies word e
        /\ Forall (fun e' => applies word e' -> length e'.1 <= length e.1)
                  suffixes
        /\ strip_first (sorted_by_len suffixes) word
           = Py.slice_to_neg (length e.1) word ++ e.2).
Proof.
  destruct (strip_first_sorted (sorted_by_len suffixes) word
              (sorted_by_len_sorted suffixes))
    as [[Hnone Heq]|(e & Hin & Ha & Hmax & Heq)].
  - left. split; [|exact Heq]. by rewrite <- (sorted_by_len_perm suffixes).
  - right. exists e. rewrite (sorted_by_len_perm suffixes) in Hin.
    split; [exact Hin|]. split; [exact Ha|]. split; [|exact Heq].
    by rewrite <- (sorted_by_len_perm suffixes).
Qed.

(** Every suffix of the table is non-empty and is replaced by nothing. *)
Lemma suffixes_shape (e : str * str) :
  e ∈ suffixes -> 0 < length e.1 /\ e.2 = [].
Proof.
  intros Hin%list_elem_of_In.
  assert (forallb (fun e : str * str => (0 <? length e.1) && Py.is_nil e.2)
                  suffixes = true) as Hall by (vm_compute; reflexivity).
  rewrite forallb_forall in Hall. apply Hall in Hin.
  apply andb_true_iff in Hin as [Hlen Hnil]. apply Nat.ltb_lt in Hlen.
  split; [exact Hlen|]. by destruct e.2.
Qed.

(** The boolean form of [applies]. *)
Definition applies_b (word : str) (e : str * str) : bool :=
  Py.endswith word e.1 && (length e.1 <? length word).

(** No irregular form ends in two different suffixes of the table. *)
Lemma irregular_one_suffix (word root : str) (e1 e2 : str * str) :
  irregular_forms !! word = Some root ->
  e1 ∈ suffixes -> e2 ∈ suffixes ->
  applies word e1 -> applies word e2 -> e1 = e2.
Proof.
  intros Hirr H1%list_elem_of_In H2%list_elem_of_In
         Ha1%applies_test Ha2%applies_test.
  unfold irregular_forms in Hirr.
  apply elem_of_list_to_map_2, list_elem_of_In in Hirr.
  match type of Hirr with
  | In _ ?l =>
      assert (forallb
                (fun kv : str * str =>
                   forallb (fun e1 =>
                     forallb (fun e2 =>
                       implb (applies_b kv.1 e1 && applies_b kv.1 e2)
                             (bool_decide (e1 = e2)))
                       suffixes) suffixes) l = true) as Hall
        by (vm_compute; reflexivity)
  end.
  rewrite forallb_forall in Hall. specialize (Hall _ Hirr).
  cbv beta in Hall.
  rewrite forallb_forall in Hall. specialize (Hall _ H1).
  cbv beta in Hall.
  rewrite forallb_forall in Hall. specialize (Hall _ H2).
  unfold applies_b in Hall. cbn [fst] in Hall.
  rewrite Ha1, Ha2 in Hall. cbn [andb implb] in Hall.
  by apply bool_decide_eq_true_1 in Hall.
Qed.

Section WithUnicode.
Context `{U : Unicode}.

(** The form of the word that [stem] works on: upper case, accented vowels
    folded. *)
Definition folded (word : str) : str :=
  QubeeAlphabet.normalize_diacritics (upper word).

(** What [stem] returns for a word that is no irregular form. *)
Lemma stem_regular (word : str) :
  irregular_forms !! folded word = None ->
  (Forall (fun e => ~ applies (folded word) e) suffixes
   /\ stem word = folded word)
  \/ (exists e, e ∈ suffixes /\ applies (folded word) e
        /\ Forall (fun e' => applies (folded word) e'
                              -> length e'.1 <= length e.1) suffixes
        /\ stem word
           = if length (folded word) - length e.1 <? 2 then folded word
             else Py.slice_to_neg (length e.1) (folded word)).
Proof.
  intros Hirr. unfold stem. fold (folded word). rewrite Hirr.
  destruct (strip_first_suffixes (folded word))
    as [[Hnone ->]|(e & Hin & Ha & Hmax & ->)].
  - left. split; [exact Hnone|]. by destruct (_ <? 2).
  - right. exists e. destruct (suffixes_shape e Hin) as [Hpos ->].
    rewrite app_nil_r, PyFacts.length_slice_to_neg by exact Hpos.
    auto.
Qed.

(** C8: the irregular-form table is consulted first and decides the
    result: a word whose upper-cased, diacritic-folded form is a key of the
    table stems to the root the table gives, whatever suffix it ends in; in
    particular [stem("dhufan") == "DHUF"]. *)
Theorem stem_irregular_first :
  (forall word root : str,
      irregular_forms !! folded word = Some root -> stem word = root)
  /\ stem (cps "dhufan") = cps "DHUF".
Proof.
  split.
  - intros word root Hirr. unfold stem. fold (folded word).
    by rewrite Hirr.
  - unfold stem. rewrite (upper_ascii (cps "dhufan") eq_refl).
    reflexivity.
Qed.

(** C6, as the code has it: when two suffixes of the table of different
    lengths end a word, each leaving something, [stem] goes by the longest
    suffix of the table that ends the word.  It strips that suffix when at
    least two characters remain and returns the word unchanged otherwise;
    in neither case is the result the word without the shorter suffix. *)
Theorem stem_longest_suffix (word : str) (e1 e2 : str * str) :
  e1 ∈ suffixes -> e2 ∈ suffixes ->
  applies (folded word) e1 -> applies (folded word) e2 ->
  length e1.1 < length e2.1 ->
  exists e,
    e ∈ suffixes /\ applies (folded word) e
    /\ (forall e', e' ∈ suffixes -> applies (folded word) e'
                   -> length e'.1 <= length e.1)
    /\ stem word
       = (if length (folded word) - length e.1 <? 2 then folded word
          else Py.slice_to_neg (length e.1) (folded word))
    /\ stem word <> Py.slice_to_neg (length e1.1) (folded word).
Proof.
  intros H1 H2 Ha1 Ha2 Hlt.
  assert (irregular_forms !! folded word = None) as Hirr.
  { destruct (irregular_forms !! folded word) as [root|] eqn:E;
      [|reflexivity].
    pose proof (irregular_one_suffix _ _ _ _ E H1 H2 Ha1 Ha2) as ->. lia. }
  destruct (stem_regular word Hirr)
    as [[Hnone _]|(e & Hin & Ha & Hmax & Hstem)].
  { rewrite Forall_forall in Hnone. by destruct (Hnone e1 H1). }
  exists e. split; [exact Hin|]. split; [exact Ha|].
  rewrite Forall_forall in Hmax. split; [exact Hmax|].
  split; [exact Hstem|].
  intros Heq. apply (f_equal length) in Heq. rewrite Hstem in Heq.
  destruct (suffixes_shape e1 H1) as [Hpos1 _].
  destruct (suffixes_shape e Hin) as [Hpos _].
  pose proof (Hmax e2 H2 Ha2) as Hle.
  destruct Ha1 as [_ Hl1]. destruct Ha as [_ Hl].
  rewrite PyFacts.length_slice_to_neg in Heq by exact Hpos1.
  destruct (Nat.ltb_spec (length (folded word) - length e.1) 2).
  - lia.
  - rewrite PyFacts.length_slice_to_neg in Heq by exact Hpos. lia.
Qed.

End WithUnicode.

(** The closed examples run the model on the fragment of the tables. *)
#[local] Existing Instance Fragment.tables.

(** C8 at the word of the spec's scenario. *)
Lemma stem_dhufan : stem (cps "dhufan") = cps "DHUF".
Proof.
  apply (proj1 stem_irregular_first (cps "dhufan") (cps "DHUF")).
  vm_compute. reflexivity.
Defined.

Ltac by_compute := unfold applies; decide_by_compute.

(** C6 at a word that ends in three suffixes of the table, OOTA, OTA and
    TA: of the two shorter ones neither is stripped. *)
Lemma stem_longest_suffix_XXOOTA :
  exists e,
    e ∈ suffixes /\ applies (folded (cps "XXOOTA")) e
    /\ (forall e', e' ∈ suffixes -> applies (folded (cps "XXOOTA")) e'
                   -> length e'.1 <= length e.1)
    /\ stem (cps "XXOOTA")
       = (if length (folded (cps "XXOOTA")) - length e.1 <? 2
          then folded (cps "XXOOTA")
          else Py.slice_to_neg (length e.1) (folded (cps "XXOOTA")))
    /\ stem (cps "XXOOTA")
       <> Py.slice_to_neg (length (cps "TA")) (folded (cps "XXOOTA")).
Proof.
  apply (stem_longest_suffix (cps "XXOOTA") (cps "TA", []) (cps "OTA", []));
    by_compute.
Defined.

(** C6 as stated fails at TOOTA: it ends in OOTA and in OTA, each leaves
    something, and [stem] returns the word itself, not the word without
    the longer of the two. *)
Lemma stem_TOOTA_unchanged :
  (cps "OTA", []) ∈ suffixes /\ (cps "OOTA", []) ∈ suffixes
  /\ applies (folded (cps "TOOTA")) (cps "OTA", [])
  /\ applies (folded (cps "TOOTA")) (cps "OOTA", [])
  /\ Py.slice_to_neg (length (cps "OTA")) (folded (cps "TOOTA")) = cps "TO"
  /\ Py.slice_to_neg (length (cps "OOTA")) (folded (cps "TOOTA")) = cps "T"
  /\ stem (cps "TOOTA") = cps "TOOTA".
Proof. by_compute. Qed.

End StemmerFacts.

(** ** The stop-word filter *)

Module StopWordsFacts.
Import StopWords.

Section WithUnicode.
Context `{U : Unicode}.

Lemma filter_sublist {A} (p : A -> bool) (l : list A) :
  List.filter p l `sublist_of` l.
Proof.
  induction l as [|x l IH]; simpl; [constructor|].
  destruct (p x); by constructor.
Qed.

(** C9: whatever the set of stop words and the variant flag,
    [remove_stopwords] returns no token that [is_stopword] accepts under
    the same flag, and the tokens it returns stand in the order they have in
    the input: the result is a subsequence of the input. *)
Theorem remove_stopwords_sound
    (stopwords : gset str) (words : list str) (check_variants : bool) :
  Forall (fun w => is_stopword stopwords w check_variants = false)
         (remove_stopwords stopwords words check_variants)
  /\ remove_stopwords stopwords words check_variants `sublist_of` words.
Proof.
  split; [|apply filter_sublist].
  apply Forall_forall. intros w Hw%list_elem_of_In.
  unfold remove_stopwords in Hw. apply filter_In in Hw as [_ Hw].
  by apply negb_true_iff in Hw.
Qed.

End WithUnicode.

End StopWordsFacts.

(** ** The POS tagger *)

Module TaggerFacts.
Import Tagsets QubeePOSTagger.

(** A table entry whose suffix ends the token and is as long as any other
    entry of the table that ends it: the longest match of the spec. *)
Definition longest_match (table : list (str * string)) (t_lower : str)
    (e : str * string) : Prop :=
  e ∈ table /\ e.1 `suffix_of` t_lower
  /\ forall e', e' ∈ table -> e'.1 `suffix_of` t_lower ->
                length e'.1 <= length e.1.

(** The entry the loop of a suffix rule stops at: the first entry of the
    table, in dictionary order, whose suffix ends the token. *)
Definition first_match (table : list (str * string)) (t_lower : str)
    (e : str * string) : Prop :=
  exists pre post,
    table = pre ++ e :: post /\ e.1 `suffix_of` t_lower
    /\ Forall (fun e' : str * string => ~ e'.1 `suffix_of` t_lower) pre.

Lemma first_suffix_first_match (table : list (str * string)) (t_lower : str)
    (e : str * string) :
  first_match table t_lower e -> first_suffix table t_lower = Some e.2.
Proof.
  intros (pre & post & -> & Hsuf & Hpre).
  induction Hpre as [|[suffix tag] pre Hno _ IH]; cbn [app first_suffix].
  - destruct e as [suffix tag]. apply PyFacts.endswith_suffix in Hsuf.
    cbn [fst] in Hsuf. by rewrite Hsuf.
  - destruct (Py.endswith t_lower suffix) eqn:Hends; [|exact IH].
    by apply PyFacts.endswith_suffix in Hends.
Qed.

Lemma get_universal_verb (tag : string) :
  tag ∈ VERB_SUFFIXES.*2 -> get_universal_tag tag = Some "VERB"%string.
Proof.
  intros Hin. unfold VERB_SUFFIXES in Hin. simpl in Hin.
  repeat (apply elem_of_cons in Hin as [->|Hin];
          [vm_compute; reflexivity|]).
  by apply elem_of_nil in Hin.
Qed.

Lemma get_universal_noun (tag : string) :
  tag ∈ NOUN_SUFFIXES.*2 -> get_universal_tag tag = Some "NOUN"%string.
Proof.
  intros Hin. unfold NOUN_SUFFIXES in Hin. simpl in Hin.
  repeat (apply elem_of_cons in Hin as [->|Hin];
          [vm_compute; reflexivity|]).
  by apply elem_of_nil in Hin.
Qed.

(** A token that no suffix of the verb table ends can only end in [ww] or
    [oo] among the suffixes of the noun table: [ii] ends in the verb
    suffix [i], and [aa] and [uu] are verb suffixes themselves. *)
Lemma noun_match_ww_oo (t_lower : str) (e : str * string) :
  (forall e', e' ∈ VERB_SUFFIXES -> ~ e'.1 `suffix_of` t_lower) ->
  e ∈ NOUN_SUFFIXES -> e.1 `suffix_of` t_lower ->
  e.1 = cps "ww" \/ e.1 = cps "oo".
Proof.
  intros Hnone Hin Hsuf. unfold NOUN_SUFFIXES in Hin.
  apply elem_of_cons in Hin as [->|Hin].
  { destruct (Hnone (cps "i", "VBIMP"%string)); [decide_by_compute|].
    etrans; [|exact Hsuf]. decide_by_compute. }
  apply elem_of_cons in Hin as [->|Hin]; [by left|].
  apply elem_of_cons in Hin as [->|Hin].
  { destruct (Hnone (cps "aa", "VBF"%string)); [decide_by_compute|done]. }
  apply elem_of_cons in Hin as [->|Hin]; [by right|].
  apply elem_of_cons in Hin as [->|Hin].
  { destruct (Hnone (cps "uu", "VBINF"%string)); [decide_by_compute|done]. }
  by apply elem_of_nil in Hin.
Qed.

Lemma first_suffix_Some (table : list (str * string)) (t_lower : str)
    (e : str * string) :
  e ∈ table -> e.1 `suffix_of` t_lower ->
  exists e0, e0 ∈ table /\ first_suffix table t_lower = Some e0.2.
Proof.
  induction table as [|[suffix tag] table IH]; intros Hin Hsuf.
  - by apply elem_of_nil in Hin.
  - simpl. destruct (Py.endswith t_lower suffix) eqn:Hends.
    + exists (suffix, tag). split; [left | reflexivity].
    + apply elem_of_cons in Hin as [->|Hin].
      * apply PyFacts.endswith_suffix in Hsuf. simpl in Hsuf. congruence.
      * destruct (IH Hin Hsuf) as (e0 & Hin0 & Heq).
        exists e0. split; [by right | exact Heq].
Qed.

Lemma first_suffix_None (table : list (str * string)) (t_lower : str) :
  (forall e, e ∈ table -> ~ e.1 `suffix_of` t_lower) ->
  first_suffix table t_lower = None.
Proof.
  induction table as [|[suffix tag] table IH]; intros Hnone;
    [reflexivity|].
  simpl. destruct (Py.endswith t_lower suffix) eqn:Hends.
  - apply PyFacts.endswith_suffix in Hends.
    destruct (Hnone (suffix, tag)); [left | exact Hends].
  - apply IH. intros e Hin. apply Hnone. by right.
Qed.

Lemma first_suffix_elem (table : list (str * string)) (t_lower : str)
    (tag : string) :
  first_suffix table t_lower = Some tag -> tag ∈ table.*2.
Proof.
  induction table as [|[suffix tag'] table IH]; simpl; [done|].
  destruct (Py.endswith t_lower suffix).
  - intros [= ->]. left.
  - intros H. right. by apply IH.
Qed.

(** Every tag of the verb table is a verb tag, every tag of the noun table
    a noun tag. *)
Lemma verb_tags_universal (tag : string) :
  tag ∈ VERB_SUFFIXES.*2 -> map_to_universal tag = "VERB"%string.
Proof.
  intros Hin. unfold VERB_SUFFIXES in Hin. simpl in Hin.
  repeat (apply elem_of_cons in Hin as [->|Hin]; [by vm_compute|]).
  by apply elem_of_nil in Hin.
Qed.

Lemma noun_tags_universal (tag : string) :
  tag ∈ NOUN_SUFFIXES.*2 -> map_to_universal tag = "NOUN"%string.
Proof.
  intros Hin. unfold NOUN_SUFFIXES in Hin. simpl in Hin.
  repeat (apply elem_of_cons in Hin as [->|Hin]; [by vm_compute|]).
  by apply elem_of_nil in Hin.
Qed.

(** The two words of the conjunction rule are prepositions. *)
Lemma conjunctions_are_prepositions : conjunctions ⊆ PREPOSITIONS.
Proof.
  intros t Ht. unfold conjunctions in Ht.
  apply elem_of_list_to_set in Ht. simpl in Ht.
  repeat (apply elem_of_cons in Ht as [->|Ht]; [decide_by_compute|]).
  by apply elem_of_nil in Ht.
Qed.

(** No entry of the lexicon is a conjunction. *)
Lemma lexicon_not_CONJ (t_lower : str) (tag : string) :
  LEXICON !! t_lower = Some tag -> tag <> "CONJ"%string.
Proof.
  unfold LEXICON. intros Hin%elem_of_list_to_map_2.
  repeat (apply elem_of_cons in Hin as [[= _ ->]|Hin]; [done|]).
  by apply elem_of_nil in Hin.
Qed.

Section WithUnicode.
Context `{U : Unicode}.

Lemma _tag_token_not_CONJ (token : str) :
  _tag_token token <> "CONJ"%string.
Proof.
  unfold _tag_token.
  destruct (Py.is_nil (Py.strip token)); [done|].
  destruct (LEXICON !! lower (Py.strip token)) as [tag|] eqn:Hlex;
    [by eapply lexicon_not_CONJ|].
  destruct (_ || _); [done|].
  destruct (forallb _ _); [done|].
  destruct (bool_decide (_ ∈ PREPOSITIONS)) eqn:Hprep; [done|].
  destruct (bool_decide (_ ∈ conjunctions)) eqn:Hconj.
  { apply bool_decide_eq_true_1, conjunctions_are_prepositions in Hconj.
    apply bool_decide_eq_false_1 in Hprep. done. }
  destruct (first_suffix VERB_SUFFIXES _) as [tag|] eqn:Hverb.
  { apply first_suffix_elem in Hverb.
    by rewrite (verb_tags_universal tag Hverb). }
  destruct (first_suffix NOUN_SUFFIXES _) as [tag|] eqn:Hnoun.
  { apply first_suffix_elem in Hnoun.
    by rewrite (noun_tags_universal tag Hnoun). }
  destruct (fullmatch_word _); [|done].
  destruct (_ || _); [done|].
  destruct (_ || _); done.
Qed.

(** C10: [tag] returns CONJ for no token of any list.  The conjunction
    rule cannot fire: both of its words are in the preposition set that the
    adposition rule tests before it. *)
Theorem tag_never_CONJ :
  conjunctions ⊆ PREPOSITIONS
  /\ forall tokens : list str,
       Forall (fun t => t <> "CONJ"%string) (tag tokens).
Proof.
  split; [exact conjunctions_are_prepositions|].
  intros tokens. unfold tag. destruct (Py.is_nil tokens); [constructor|].
  apply Forall_forall. intros t Ht%list_elem_of_In.
  apply in_map_iff in Ht as (token & <- & _).
  apply _tag_token_not_CONJ.
Qed.

(** The token as the rules see it: stripped and lower-cased. *)
Definition lowered (token : str) : str := lower (Py.strip token).

(** The token passes the lexicon, numeral, punctuation and adposition
    rules, so the suffix rules decide or pass it on. *)
Definition reaches_suffix_rules (token : str) : Prop :=
  Py.is_nil (Py.strip token) = false
  /\ LEXICON !! lowered token = None
  /\ bool_decide (lowered token ∈ afaan_oromoo_numbers)
     || fullmatch_number (lowered token) = false
  /\ forallb (fun c => Py.contains c punctuation_without_apostrophe)
             (lowered token) = false
  /\ bool_decide (lowered token ∈ PREPOSITIONS) = false.

Lemma _tag_token_suffix_rules (token : str) :
  reaches_suffix_rules token ->
  _tag_token token =
    match first_suffix VERB_SUFFIXES (lowered token) with
    | Some tag => map_to_universal tag
    | None =>
        match first_suffix NOUN_SUFFIXES (lowered token) with
        | Some tag => map_to_universal tag
        | None => _tag_token token
        end
    end.
Proof.
  intros (Hnil & Hlex & Hnum & Hpunc & Hprep).
  unfold _tag_token. fold (lowered token).
  rewrite Hnil, Hlex, Hnum, Hpunc, Hprep.
  destruct (bool_decide (_ ∈ conjunctions)) eqn:Hconj.
  { apply bool_decide_eq_true_1, conjunctions_are_prepositions in Hconj.
    apply bool_decide_eq_false_1 in Hprep. done. }
  destruct (first_suffix VERB_SUFFIXES _); [reflexivity|].
  destruct (first_suffix NOUN_SUFFIXES _); reflexivity.
Qed.

(** C2, as the code has it: for a token that reaches the suffix rules, the
    verb rule looks up the first suffix of the verb table, in dictionary
    order, that ends the token, and returns the universal tag of its tag,
    which is VERB for every entry of the table; when no suffix of the verb
    table ends the token, the noun rule does the same with the noun table,
    where the suffix can only be [ww] or [oo] and the tag returned is
    NOUN.  As all the tags of a table share one universal tag, the tag
    returned is also the universal tag of the longest suffix of the table
    that ends the token. *)
Theorem suffix_rules_first_match (token : str) (e : str * string) :
  reaches_suffix_rules token ->
  (first_match VERB_SUFFIXES (lowered token) e ->
   first_suffix VERB_SUFFIXES (lowered token) = Some e.2
   /\ get_universal_tag e.2 = Some "VERB"%string
   /\ _tag_token token = map_to_universal e.2
   /\ _tag_token token = "VERB"%string)
  /\ ((forall e', e' ∈ VERB_SUFFIXES -> ~ e'.1 `suffix_of` lowered token) ->
      first_match NOUN_SUFFIXES (lowered token) e ->
      first_suffix NOUN_SUFFIXES (lowered token) = Some e.2
      /\ (e.1 = cps "ww" \/ e.1 = cps "oo")
      /\ get_universal_tag e.2 = Some "NOUN"%string
      /\ _tag_token token = map_to_universal e.2
      /\ _tag_token token = "NOUN"%string)
  /\ (longest_match VERB_SUFFIXES (lowered token) e ->
      _tag_token token = map_to_universal e.2)
  /\ ((forall e', e' ∈ VERB_SUFFIXES -> ~ e'.1 `suffix_of` lowered token) ->
      longest_match NOUN_SUFFIXES (lowered token) e ->
      _tag_token token = map_to_universal e.2).
Proof.
  intros Hreach. rewrite (_tag_token_suffix_rules token Hreach).
  split; [|split; [|split]]; cycle 2.
  { intros (Hin & Hsuf & _).
    destruct (first_suffix_Some _ _ _ Hin Hsuf) as (e0 & Hin0 & ->).
    rewrite !verb_tags_universal; [done|by apply list_elem_of_fmap_2..]. }
  { intros Hnone (Hin & Hsuf & _). rewrite (first_suffix_None _ _ Hnone).
    destruct (first_suffix_Some _ _ _ Hin Hsuf) as (e0 & Hin0 & ->).
    rewrite !noun_tags_universal; [done|by apply list_elem_of_fmap_2..]. }
  - intros Hfirst. rewrite (first_suffix_first_match _ _ _ Hfirst).
    destruct Hfirst as (pre & post & Htable & _ & _).
    assert (e.2 ∈ VERB_SUFFIXES.*2) as Hin.
    { apply list_elem_of_fmap_2. rewrite Htable. set_solver. }
    rewrite (verb_tags_universal e.2 Hin). by rewrite get_universal_verb.
  - intros Hnone Hfirst. rewrite (first_suffix_None _ _ Hnone).
    rewrite (first_suffix_first_match _ _ _ Hfirst).
    destruct Hfirst as (pre & post & Htable & Hsuf & _).
    assert (e ∈ NOUN_SUFFIXES) as Hin by (rewrite Htable; set_solver).
    assert (e.2 ∈ NOUN_SUFFIXES.*2) as Hin2 by by apply list_elem_of_fmap_2.
    rewrite (noun_tags_universal e.2 Hin2), (get_universal_noun e.2 Hin2).
    split; [done|]. split; [|done]. by eapply noun_match_ww_oo.
Qed.

End WithUnicode.

#[local] Existing Instance Fragment.tables.

(** C2 at a token that ends in two suffixes of the verb table, [si] and
    [i]: the loop stops at [i], which comes first in the table. *)
Lemma suffix_rules_first_match_barsiisi :
  first_suffix VERB_SUFFIXES (lowered (cps "barsiisi")) = Some "VBIMP"%string
  /\ get_universal_tag "VBIMP" = Some "VERB"%string
  /\ _tag_token (cps "barsiisi") = map_to_universal "VBIMP"
  /\ _tag_token (cps "barsiisi") = "VERB"%string.
Proof.
  apply (proj1 (suffix_rules_first_match
                  (cps "barsiisi") (cps "i", "VBIMP"%string)
                  ltac:(unfold reaches_suffix_rules; decide_by_compute))).
  exists [(cps "uu", "VBINF"); (cps "aa", "VBF"); (cps "ee", "VBF")]%string,
         [(cps "u", "VBPART"); (cps "si", "VBCAUS");
          (cps "am", "VBPASS"); (cps "at", "VBREFL")]%string.
  split; [reflexivity|]. split; decide_by_compute.
Defined.

(** C2 as stated fails at the same token: the longest suffix of the verb
    table that ends it is [si], with tag VBCAUS, and the lookup of the verb
    rule yields the tag VBIMP of the shorter suffix [i]. *)
Lemma suffix_rules_not_longest_barsiisi :
  longest_match VERB_SUFFIXES (lowered (cps "barsiisi"))
                (cps "si", "VBCAUS"%string)
  /\ first_match VERB_SUFFIXES (lowered (cps "barsiisi"))
                 (cps "i", "VBIMP"%string)
  /\ first_suffix VERB_SUFFIXES (lowered (cps "barsiisi"))
     = Some "VBIMP"%string
  /\ length (cps "i") < length (cps "si").
Proof.
  split; [|split; [|decide_by_compute]].
  - split; [decide_by_compute|]. split; [decide_by_compute|].
    intros e' Hin _. unfold VERB_SUFFIXES in Hin.
    repeat (apply elem_of_cons in Hin as [->|Hin]; [simpl; lia|]).
    by apply elem_of_nil in Hin.
  - exists [(cps "uu", "VBINF"); (cps "aa", "VBF"); (cps "ee", "VBF")]%string,
           [(cps "u", "VBPART"); (cps "si", "VBCAUS");
            (cps "am", "VBPASS"); (cps "at", "VBREFL")]%string.
    split; [reflexivity|]. split; decide_by_compute.
Qed.

End TaggerFacts.

(** ** The tokenizer *)

Module TokenizerFacts.
Import QubeeTokenizer.

(** *** The matches of the word pattern *)

Lemma is_letter_latin1 (c : N) : is_letter c = true -> (c < 256)%N.
Proof.
  unfold is_letter, Py.ascii_letter, Py.ascii_upper_letter,
    Py.ascii_lower_letter, Py.between.
  rewrite !orb_true_iff, !andb_true_iff, !N.leb_le. lia.
Qed.

Lemma letter_not_space (c : N) :
  is_letter c = true -> Py.isspace c = false.
Proof.
  intros Hc.
  pose proof (PyFacts.below_forall 256
    (fun c => implb (is_letter c) (negb (Py.isspace c)))
    eq_refl c (is_letter_latin1 c Hc)) as H.
  cbv beta in H. rewrite Hc in H. by apply negb_true_iff in H.
Qed.

Lemma scan_spaces (i : nat) (s : str) :
  forallb Py.isspace s = true -> scan i None s = [].
Proof.
  revert i. induction s as [|c s IH]; intros i; [reflexivity|].
  simpl. intros [Hc Hs]%andb_true_iff.
  destruct (is_letter c) eqn:Hl.
  - apply letter_not_space in Hl. congruence.
  - by apply IH.
Qed.

(** A span lies within the text, is not empty, starts at [lo] or later. *)
Definition span_within (lo hi : nat) (m : nat * nat) : Prop :=
  lo <= m.1 /\ m.1 < m.2 /\ m.2 <= hi.

(** Spans in text order that do not overlap. *)
Definition apart (a b : nat * nat) : Prop := a.2 <= b.1.

Lemma span_within_weaken (lo lo' hi : nat) (m : nat * nat) :
  lo' <= lo -> span_within lo hi m -> span_within lo' hi m.
Proof. unfold span_within. lia. Qed.

Lemma scan_spans (s : str) (i : nat) (cur : option nat) :
  (forall st, cur = Some st -> st < i) ->
  Forall (span_within (default i cur) (i + length s)) (scan i cur s)
  /\ StronglySorted apart (scan i cur s).
Proof.
  revert i cur. induction s as [|c s IH]; intros i cur Hcur.
  - destruct cur as [st|]; simpl.
    + specialize (Hcur st eq_refl). split; [|repeat constructor].
      repeat constructor; simpl; lia.
    + split; constructor.
  - cbn [scan length]. replace (i + S (length s)) with (S i + length s) by lia.
    destruct cur as [st|].
    + specialize (Hcur st eq_refl).
      assert (forall st', Some st = Some st' -> st' < S i) as Hcur'
        by (intros ? [= <-]; lia).
      destruct (is_letter c); [exact (IH (S i) (Some st) Hcur')|].
      destruct (is_joiner c && head_is_letter s);
        [exact (IH (S i) (Some st) Hcur')|].
      destruct (IH (S i) None) as [Hin Hsort]; [done|]. simpl in Hin.
      split.
      * constructor; [unfold span_within; simpl; lia|].
        eapply Forall_impl; [exact Hin|]. intros m.
        apply span_within_weaken. simpl. lia.
      * constructor; [exact Hsort|].
        eapply Forall_impl; [exact Hin|]. unfold span_within, apart.
        simpl. lia.
    + destruct (is_letter c).
      * destruct (IH (S i) (Some i)) as [Hin Hsort];
          [intros ? [= <-]; lia|].
        split; [|exact Hsort]. exact Hin.
      * destruct (IH (S i) None) as [Hin Hsort]; [done|].
        split; [|exact Hsort].
        eapply Forall_impl; [exact Hin|]. intros m.
        apply span_within_weaken. simpl. lia.
Qed.

Lemma finditer_spans (text : str) :
  Forall (span_within 0 (length text)) (finditer text)
  /\ StronglySorted apart (finditer text).
Proof. apply (scan_spans text 0 None). done. Qed.

Section WithUnicode.
Context `{U : Unicode}.

(** *** Strict mode *)

Lemma has_digit_not_blank (text : str) :
  has_digit text = true -> Py.is_nil (Py.strip text) = false.
Proof.
  intros Hd. rewrite PyFacts.strip_nil. apply not_true_is_false.
  intros Hs. unfold has_digit in Hd.
  apply existsb_exists in Hd as (c & Hin & Hc).
  rewrite forallb_forall in Hs. specialize (Hs c Hin).
  apply re_digit_not_space in Hc. congruence.
Qed.

Lemma blank_no_digit (text : str) :
  Py.is_nil (Py.strip text) = true -> has_digit text = false.
Proof.
  intros Hb. destruct (has_digit text) eqn:Hd; [|reflexivity].
  apply has_digit_not_blank in Hd. congruence.
Qed.

(** C3, as the code has it: in strict mode a text with a digit makes both
    [tokenize] and [tokenize_with_positions] fail; a text without digits
    that is not blank and has no token makes [tokenize] fail; an empty or
    blank text makes [tokenize] return the empty list. *)
Theorem strict_tokenize_failures (cfg : config) (text : str) :
  strict cfg = true ->
  (has_digit text = true ->
   tokenize cfg text = Raise DigitsNotAllowed
   /\ tokenize_with_positions cfg text = Raise DigitsNotAllowed)
  /\ (has_digit text = false -> findall text = [] ->
      Py.is_nil (Py.strip text) = false ->
      tokenize cfg text = Raise NoValidTokens)
  /\ (Py.is_nil (Py.strip text) = true -> tokenize cfg text = Ok []).
Proof.
  intros Hstrict. unfold tokenize, tokenize_with_positions,
    _validate_strict_text. rewrite Hstrict. split; [|split].
  - intros Hd. by rewrite (has_digit_not_blank text Hd), Hd.
  - intros Hd Hnone Hblank. by rewrite Hblank, Hd, Hnone.
  - intros Hblank. by rewrite Hblank.
Qed.

(** *** Tokens and positions *)

(** The entry that [tokenize_with_positions] builds for a match. *)
Definition entry (cfg : config) (text : str) (m : nat * nat) : positioned :=
  {| token := _normalize_token cfg (group text m);
     start := m.1;
     end_ := m.2;
     length_ := m.2 - m.1 |}.

(** The two loops fail together, on the same token, and otherwise yield the
    same normalized tokens, one per match. *)
Lemma loops_agree (cfg : config) (text : str) (ms : list (nat * nat)) :
  match normalize_tokens cfg (map (group text) ms),
        position_tokens cfg text ms with
  | Ok toks, Ok recs => toks = map token recs /\ recs = map (entry cfg text) ms
  | Raise e1, Raise e2 => e1 = e2
  | _, _ => False
  end.
Proof.
  induction ms as [|m ms IH]; simpl; [done|].
  destruct (if strict cfg then _validate_strict_token (group text m)
            else Ok tt) as [[]|e]; [|reflexivity].
  destruct (normalize_tokens cfg (map (group text) ms)) as [toks|e1],
    (position_tokens cfg text ms) as [recs|e2]; try done.
  destruct IH as [-> ->]. done.
Qed.

Lemma normalize_tokens_lenient (cfg : config) (tokens : list str) :
  strict cfg = false -> exists toks, normalize_tokens cfg tokens = Ok toks.
Proof.
  intros Hs. induction tokens as [|t ts [toks IH]]; simpl; [by eexists|].
  rewrite Hs, IH. by eexists.
Qed.

(** The offsets of the entries: each entry spans a non-empty part of the
    text and holds the normalized text of that part. *)
Definition placed (cfg : config) (text : str) (r : positioned) : Prop :=
  start r < end_ r /\ end_ r <= length text
  /\ length_ r = end_ r - start r
  /\ token r = _normalize_token cfg (Py.slice (start r) (end_ r) text).

(** An entry that comes later starts no earlier, and not before the
    earlier entry ends. *)
Definition follows (r1 r2 : positioned) : Prop :=
  start r1 <= start r2 /\ end_ r1 <= start r2.

Lemma entries_placed (cfg : config) (text : str) :
  Forall (placed cfg text) (map (entry cfg text) (finditer text))
  /\ StronglySorted follows (map (entry cfg text) (finditer text)).
Proof.
  destruct (finditer_spans text) as [Hin Hsort]. split.
  - apply Forall_fmap. eapply Forall_impl; [exact Hin|].
    intros m (_ & Hlt & Hle). unfold placed. simpl. done.
  - induction Hsort as [|m ms Hms IH Hm]; simpl; constructor.
    + apply IH. by apply Forall_inv_tail in Hin.
    + apply Forall_fmap. apply Forall_inv in Hin as (_ & Hlt & _).
      eapply Forall_impl; [exact Hm|]. unfold apart, follows. simpl. lia.
Qed.

(** C5: [tokenize] and [tokenize_with_positions] produce the same tokens,
    one entry per token.  Outside strict mode both always return; whenever
    [tokenize] returns, so does [tokenize_with_positions]; and whenever
    [tokenize_with_positions] returns, [tokenize] returns the tokens of its
    entries, except that in strict mode [tokenize] fails where there is no
    token at all.  The entries lie in the input text in increasing order
    without overlap: an entry starts at or after the end of the one before
    it, and its token is the normalized text between its offsets. *)
Theorem tokenize_positions_agree (cfg : config) (text : str) :
  (strict cfg = false ->
   exists toks recs,
     tokenize cfg text = Ok toks
     /\ tokenize_with_positions cfg text = Ok recs)
  /\ (forall toks,
        tokenize cfg text = Ok toks ->
        exists recs,
          tokenize_with_positions cfg text = Ok recs
          /\ length toks = length recs /\ toks = map token recs)
  /\ (forall recs,
        tokenize_with_positions cfg text = Ok recs ->
        Forall (placed cfg text) recs /\ StronglySorted follows recs)
  /\ (forall recs,
        tokenize_with_positions cfg text = Ok recs ->
        tokenize cfg text = Ok (map token recs)
        \/ (strict cfg = true /\ recs = []
            /\ tokenize cfg text = Raise NoValidTokens)).
Proof.
  assert (forall toks,
            tokenize cfg text = Ok toks ->
            exists recs,
              tokenize_with_positions cfg text = Ok recs
              /\ length toks = length recs /\ toks = map token recs)
    as Hagree.
  { intros toks. unfold tokenize, tokenize_with_positions.
    destruct (Py.is_nil (Py.strip text)) eqn:Hblank.
    - intros [= <-]. exists [].
      unfold _validate_strict_text. rewrite (blank_no_digit text Hblank).
      rewrite PyFacts.strip_nil in Hblank. unfold finditer.
      rewrite (scan_spaces 0 text Hblank). by destruct (strict cfg).
    - destruct (if strict cfg then _validate_strict_text text else Ok tt)
        as [[]|e]; [|done].
      destruct (strict cfg && Py.is_nil (findall text)); [done|].
      unfold findall. intros Htoks.
      pose proof (loops_agree cfg text (finditer text)) as H.
      rewrite Htoks in H.
      destruct (position_tokens cfg text (finditer text)) as [recs|];
        [|done].
      destruct H as [-> _]. exists recs. by rewrite length_map. }
  split; [|split; [exact Hagree|split]].
  - intros Hs.
    assert (exists toks, tokenize cfg text = Ok toks) as [toks Htoks].
    { unfold tokenize. rewrite Hs. simpl.
      destruct (Py.is_nil (Py.strip text)); [by eexists|].
      apply normalize_tokens_lenient, Hs. }
    destruct (Hagree toks Htoks) as (recs & Hrecs & _). eauto.
  - intros recs. unfold tokenize_with_positions.
    destruct (if strict cfg then _validate_strict_text text else Ok tt)
      as [[]|e]; [|done].
    intros Hrecs.
    pose proof (loops_agree cfg text (finditer text)) as H.
    rewrite Hrecs in H.
    destruct (normalize_tokens cfg (map (group text) (finditer text)));
      [|done].
    destruct H as [_ ->]. apply entries_placed.
  - intros recs. unfold tokenize, tokenize_with_positions.
    destruct (if strict cfg then _validate_strict_text text else Ok tt)
      as [[]|e]; [|done].
    destruct (Py.is_nil (Py.strip text)) eqn:Hblank.
    { rewrite PyFacts.strip_nil in Hblank. unfold finditer.
      rewrite (scan_spaces 0 text Hblank). intros [= <-]. by left. }
    intros Hrecs.
    destruct (strict cfg && Py.is_nil (findall text)) eqn:Hnone.
    + right. apply andb_true_iff in Hnone as [Hs Hnil].
      unfold findall in Hnil.
      destruct (finditer text); [|done]. injection Hrecs as <-. done.
    + left. pose proof (loops_agree cfg text (finditer text)) as H.
      rewrite Hrecs in H. unfold findall.
      destruct (normalize_tokens cfg (map (group text) (finditer text)));
        [|done].
      by destruct H as [-> _].
Qed.

End WithUnicode.

#[local] Existing Instance Fragment.tables.

Definition strict_mode : config := {| preserve_case := false; strict := true |}.

(** C5 at a text of the repository's tests, outside strict mode. *)
Lemma tokenize_positions_agree_Afaan_Oromoo :
  exists toks recs,
    tokenize {| preserve_case := false; strict := false |}
             (cps "Afaan Oromoo") = Ok toks
    /\ tokenize_with_positions {| preserve_case := false; strict := false |}
                               (cps "Afaan Oromoo") = Ok recs.
Proof.
  apply (proj1 (tokenize_positions_agree
                  {| preserve_case := false; strict := false |}
                  (cps "Afaan Oromoo"))).
  reflexivity.
Defined.

(** C3 at the text of the repository's strict-mode test. *)
Lemma strict_tokenize_failures_Hello_123 :
  tokenize strict_mode (cps "Hello 123") = Raise DigitsNotAllowed
  /\ tokenize_with_positions strict_mode (cps "Hello 123")
     = Raise DigitsNotAllowed.
Proof.
  apply (proj1 (strict_tokenize_failures strict_mode (cps "Hello 123")
                  eq_refl)).
  vm_compute. reflexivity.
Defined.

(** C3 as stated fails at a blank text: it has no digit and yields no
    token, and strict [tokenize] returns the empty list. *)
Lemma strict_tokenize_blank :
  has_digit (cps "   ") = false
  /\ findall (cps "   ") = []
  /\ tokenize strict_mode (cps "   ") = Ok [].
Proof. decide_by_compute. Qed.

(** *** Sentences and abbreviations *)

#[local] Instance ValueError_eq_dec : EqDecision ValueError.
Proof. solve_decision. Defined.

#[local] Instance result_eq_dec {A} `{EqDecision A} : EqDecision (result A).
Proof. solve_decision. Defined.

(** The abbreviations as a list; a Python set is iterated in one of the
    orders of [permutations abbreviation_list]. *)
Definition abbreviation_list : list str :=
  map cps ["DR."; "PROF."; "MR."; "MRS."; "MS."]%string.

Lemma abbreviation_list_spec : list_to_set abbreviation_list = _abbreviations.
Proof. reflexivity. Qed.

Definition case_preserving : config :=
  {| preserve_case := true; strict := false |}.
Definition default_mode : config :=
  {| preserve_case := false; strict := false |}.

(** C7 fails for a case-preserving tokenizer: whatever the order in which
    the set of abbreviations is iterated, [sentence_tokenize] splits the
    text of the spec's scenario after the abbreviation. *)
Lemma sentence_tokenize_Dr_case_preserved :
  Forall
    (fun order =>
       sentence_tokenize case_preserving order (cps "Dr. Abebe.")
       = Ok [cps "Dr."; cps "Abebe."])
    (permutations abbreviation_list).
Proof. decide_by_compute. Qed.

(** The scenario itself holds of the default tokenizer, in every order. *)
Lemma sentence_tokenize_Dr_default :
  Forall
    (fun order =>
       sentence_tokenize default_mode order (cps "Dr. Abebe.")
       = Ok [cps "DR. ABEBE."])
    (permutations abbreviation_list).
Proof. decide_by_compute. Qed.

End TokenizerFacts.

(** ** The syllabifier *)

Module SyllabifierFacts.
Import Syllabifier.

(** *** Separators and the parts of a word *)

Definition is_separator (c : N) : bool := (c =? 39)%N || (c =? 45)%N.

(** The word with its apostrophes and hyphens taken out. *)
Definition without_separators (w : str) : str :=
  List.filter (fun c => negb (is_separator c)) w.

(** A character of a normalized valid word: a lower-case letter, an
    apostrophe or a hyphen. *)
Definition plain (c : N) : bool :=
  Py.ascii_lower_letter c || (c =? 39)%N || (c =? 45)%N.

Lemma contains_false (c : N) (s : str) :
  Py.contains c s = false <-> forallb (fun x => negb (c =? x)%N) s = true.
Proof.
  unfold Py.contains. induction s as [|x s IH]; simpl; [done|].
  rewrite orb_false_iff, andb_true_iff, negb_true_iff. tauto.
Qed.

Lemma split_forallb (P : N -> bool) (sep : N) (w : str) :
  forallb P w = true -> forallb (forallb P) (Py.split sep w) = true.
Proof.
  induction w as [|c w IH]; [done|]. cbn [forallb Py.split].
  intros [Hc Hw]%andb_true_iff. specialize (IH Hw).
  destruct (c =? sep)%N; [exact IH|].
  destruct (Py.split sep w) as [|p ps]; simpl in *; [by rewrite Hc|].
  by rewrite Hc.
Qed.

Lemma split_no_separator (sep : N) (w : str) :
  forallb (fun p => negb (Py.contains sep p)) (Py.split sep w) = true.
Proof.
  induction w as [|c w IH]; [done|]. cbn [Py.split].
  destruct (N.eqb_spec c sep) as [->|Hne]; [exact IH|].
  assert ((sep =? c)%N = false) as Hsc by (apply N.eqb_neq; congruence).
  destruct (Py.split sep w) as [|p ps]; simpl in *; by rewrite Hsc.
Qed.

Lemma split_concat (sep : N) (w : str) :
  concat (Py.split sep w) = List.filter (fun c => negb (c =? sep)%N) w.
Proof.
  induction w as [|c w IH]; [done|]. cbn [Py.split List.filter].
  destruct (c =? sep)%N; simpl; [exact IH|].
  destruct (Py.split sep w) as [|p ps]; simpl in *; by rewrite <- IH.
Qed.

Lemma without_separators_split (sep : N) (w : str) :
  is_separator sep = true ->
  without_separators (concat (Py.split sep w)) = without_separators w.
Proof.
  intros Hsep. rewrite split_concat. unfold without_separators.
  rewrite PyFacts.filter_filter_bool. apply filter_ext. intros c.
  destruct (N.eqb_spec c sep) as [->|]; [by rewrite Hsep | done].
Qed.

(** The syllables of the parts, put together, spell the parts. *)
Lemma concat_parts (parts : list str) (ls : list (list str)) :
  Forall2 (fun p l => concat l = without_separators p) parts ls ->
  concat (concat ls) = without_separators (concat parts).
Proof.
  induction 1 as [|p l parts ls Hp _ IH]; [done|]. simpl.
  unfold without_separators in *.
  by rewrite concat_app, List.filter_app, Hp, IH.
Qed.

Section WithUnicode.
Context `{U : Unicode}.

(** *** The parse loop *)

Lemma take_onset_length (w : str) :
  length (take_onset w).2 <= length w.
Proof.
  remember (length w) as n eqn:Hn.
  assert (length w <= n) as Hle by lia. clear Hn.
  revert w Hle. induction n as [|n IH]; intros [|c w] Hle; simpl in *;
    try lia.
  destruct (QubeeAlphabet.is_consonant c); [|simpl; lia].
  destruct w as [|d w]; [simpl; lia|].
  destruct (bool_decide ([c; d] ∈ digraphs)).
  - specialize (IH w). destruct (take_onset w) as [o r]. simpl in *. lia.
  - specialize (IH (d :: w)). destruct (take_onset (d :: w)) as [o r].
    simpl in *. lia.
Qed.

Lemma take_nucleus_length (w : str) :
  length (take_nucleus w).2 <= length w
  /\ (Py.is_nil (take_nucleus w).1 = false ->
      length (take_nucleus w).2 < length w).
Proof.
  induction w as [|c w [IH _]]; simpl; [done|].
  destruct (QubeeAlphabet.is_vowel c); [|simpl; split; [lia|done]].
  destruct (take_nucleus w) as [v r]. simpl in *. split; [lia|]. lia.
Qed.

Lemma take_coda_length (w : str) : length (take_coda w).2 <= length w.
Proof.
  destruct w as [|c w]; simpl; [done|].
  destruct (QubeeAlphabet.is_consonant c); [|simpl; lia].
  destruct (_ || _); simpl; lia.
Qed.

(** The loop ends within [len(rest) + 1] turns. *)
Lemma parse_loop_total (fuel : nat) (rest : str) (syllables : list str) :
  length rest < fuel -> is_Some (parse_loop fuel rest syllables).
Proof.
  revert rest syllables.
  induction fuel as [|fuel IH]; intros rest syllables Hlen; [lia|].
  destruct rest as [|c rest]; [done|]. cbn [parse_loop].
  pose proof (take_onset_length (c :: rest)) as Ho.
  destruct (take_onset (c :: rest)) as [onset r1]. cbn [snd] in Ho.
  pose proof (take_nucleus_length r1) as [_ Hn].
  destruct (take_nucleus r1) as [nucleus r2]. cbn [fst snd] in Hn.
  destruct (Py.is_nil nucleus); [done|]. specialize (Hn eq_refl).
  pose proof (take_coda_length r2) as Hc.
  destruct (take_coda r2) as [coda r3]. cbn [snd] in Hc.
  apply IH. simpl in *. lia.
Qed.

(** The onset-nucleus-coda parse of a word without separators as it
    stands before the check at the end of [syllabify]: the syllables of the
    loop, with the leftover attached. *)
Definition internal_parse (word : str) : option (list str) :=
  '(syllables, leftover) ← parse_loop (S (length word)) word [];
  Some (attach_leftover syllables leftover).

(** The internal parse is kept when it spells the word and is not empty. *)
Definition reproduces (syllables : list str) (word : str) : bool :=
  bool_decide (Py.join syllables = word) && negb (Py.is_nil syllables).

(** [parse] returns: the internal parse when it reproduces the word, and
    the word as a single syllable when it does not. *)
Lemma parse_fallback (word : str) :
  exists syllables,
    internal_parse word = Some syllables
    /\ parse word
       = Some (if reproduces syllables word then syllables else [word]).
Proof.
  unfold parse, internal_parse, reproduces.
  destruct (parse_loop_total (S (length word)) word []) as [[syl left] ->];
    [lia|].
  cbn [mbind option_bind]. cbv zeta.
  exists (attach_leftover syl left). split; [reflexivity|].
  generalize (attach_leftover syl left). intros syls.
  unfold Py.str_eqb.
  destruct (bool_decide (Py.join syls = word)); cbn [negb andb]; [|done].
  by destruct syls.
Qed.

(** So what [parse] returns spells the word. *)
Lemma parse_spec (word : str) :
  exists l, parse word = Some l /\ concat l = word /\ l <> [].
Proof.
  destruct (parse_fallback word) as (syls & _ & ->). unfold reproduces.
  eexists. split; [reflexivity|].
  destruct (bool_decide_reflect (Py.join syls = word)) as [Heq|_];
    cbn [andb].
  - destruct syls as [|s l]; cbn [negb Py.is_nil].
    + split; [|done]. simpl. by rewrite app_nil_r.
    + split; [exact Heq | done].
  - split; [|done]. simpl. by rewrite app_nil_r.
Qed.

(** *** Normalized words *)

Lemma plain_ascii (w : str) :
  forallb plain w = true -> forallb Py.is_ascii w = true.
Proof.
  intros Hw. apply forallb_forall. intros c Hc.
  rewrite forallb_forall in Hw. specialize (Hw c Hc).
  unfold plain, Py.ascii_lower_letter, Py.between in Hw.
  unfold Py.is_ascii. apply N.ltb_lt.
  rewrite !orb_true_iff, andb_true_iff, !N.leb_le, !N.eqb_eq in Hw. lia.
Qed.

Lemma plain_lower (w : str) :
  forallb plain w = true -> map Py.ascii_lower w = w.
Proof.
  induction w as [|c w IH]; simpl; [done|].
  intros [Hc Hw]%andb_true_iff. rewrite (IH Hw). f_equal.
  unfold Py.ascii_lower, Py.ascii_upper_letter, Py.between.
  unfold plain, Py.ascii_lower_letter, Py.between in Hc.
  rewrite !orb_true_iff, andb_true_iff, !N.leb_le, !N.eqb_eq in Hc.
  destruct (N.leb_spec 65 c), (N.leb_spec c 90); simpl; try done; lia.
Qed.

Lemma normalize_plain (w : str) :
  forallb plain w = true -> _normalize_word w = w.
Proof.
  intros Hw. pose proof (plain_ascii w Hw) as Ha. unfold _normalize_word.
  rewrite (nfkd_ascii w Ha), (PyFacts.filter_id _ w Ha), (lower_ascii w Ha).
  by apply plain_lower.
Qed.

(** A normalized word that passes [_is_valid_word] is plain. *)
Lemma valid_normalized_plain (word : str) :
  _is_valid_word (_normalize_word word) = true ->
  forallb plain (_normalize_word word) = true.
Proof.
  unfold _normalize_word, _is_valid_word.
  set (a := List.filter Py.is_ascii (nfkd word)).
  assert (forallb Py.is_ascii a = true) as Ha.
  { apply forallb_forall. intros c Hc. by apply filter_In in Hc as [_ Hc]. }
  rewrite (lower_ascii a Ha). intros [_ Hv]%andb_true_iff.
  rewrite forallb_forall in Hv. apply forallb_forall. intros c Hc.
  specialize (Hv c Hc). apply in_map_iff in Hc as (c' & <- & Hc').
  rewrite forallb_forall in Ha. specialize (Ha c' Hc').
  revert Hv.
  pose proof (ascii_forall
    (fun c' => implb (Py.ascii_letter (Py.ascii_lower c')
                      || (Py.ascii_lower c' =? 39)%N
                      || (Py.ascii_lower c' =? 45)%N)
                     (plain (Py.ascii_lower c')))
    eq_refl c' Ha) as H.
  cbv beta in H. intros Hv. by rewrite Hv in H.
Qed.

Lemma plain_not_space (c : N) : plain c = true -> Py.isspace c = false.
Proof.
  intros Hc.
  assert (Py.is_ascii c = true) as Ha.
  { pose proof (plain_ascii [c]) as H. simpl in H.
    rewrite Hc in H. specialize (H eq_refl). by apply andb_true_iff in H as [H _]. }
  pose proof (ascii_forall
    (fun c => implb (plain c) (negb (Py.isspace c))) eq_refl c Ha) as H.
  cbv beta in H. rewrite Hc in H. by apply negb_true_iff in H.
Qed.

Lemma plain_not_digit (w : str) :
  forallb plain w = true -> _contains_digit w = false.
Proof.
  intros Hw. unfold _contains_digit. apply not_true_is_false.
  intros (c & Hin & Hd)%existsb_exists.
  pose proof (plain_ascii w Hw) as Ha.
  rewrite forallb_forall in Hw, Ha.
  specialize (Hw c Hin). specialize (Ha c Hin).
  rewrite (isdigit_ascii c Ha) in Hd.
  pose proof (ascii_forall
    (fun c => implb (plain c) (negb (Py.ascii_digit c))) eq_refl c Ha) as H.
  cbv beta in H. rewrite Hw, Hd in H. done.
Qed.

Lemma plain_valid (w : str) :
  forallb plain w = true ->
  _is_valid_word w = negb (Py.is_nil w)
  /\ fullmatch_lower w = negb (Py.is_nil w).
Proof.
  intros Hw. unfold _is_valid_word, fullmatch_lower.
  assert (forallb (fun c => Py.ascii_letter c || (c =? 39)%N || (c =? 45)%N)
                  w = true) as ->.
  { apply forallb_forall. intros c Hc. rewrite forallb_forall in Hw.
    specialize (Hw c Hc). unfold plain in Hw. unfold Py.ascii_letter.
    destruct (Py.ascii_lower_letter c); [by rewrite orb_true_r|].
    cbn [orb] in Hw. by rewrite orb_false_r, <- orb_assoc, Hw, orb_true_r. }
  fold plain. rewrite Hw. by rewrite !andb_true_r.
Qed.

(** *** Words with separators *)

(** What [syllabify] does with the normalized word once it has passed the
    checks: split at a separator, or parse. *)
Definition split_or_parse (fuel : nat) (strict : bool) (word : str)
  : option (list str) :=
  if Py.contains 39 word
  then @concat str <$> mapM (syllabify fuel strict) (Py.split 39 word)
  else if Py.contains 45 word
  then @concat str <$> mapM (syllabify fuel strict) (Py.split 45 word)
  else parse word.

Lemma syllabify_S (fuel : nat) (strict : bool) (word : str) :
  syllabify (S fuel) strict word =
    if Py.is_nil word || Py.is_nil (Py.strip word) then Some []
    else if _contains_digit (_normalize_word word) then Some []
    else if negb (_is_valid_word (_normalize_word word)) then Some []
    else if strict && negb (fullmatch_lower (_normalize_word word))
    then Some []
    else split_or_parse fuel strict (_normalize_word word).
Proof. reflexivity. Qed.

(** On a plain word the checks pass and the normalization changes
    nothing. *)
Lemma syllabify_plain (fuel : nat) (strict : bool) (w : str) :
  forallb plain w = true ->
  syllabify (S fuel) strict w =
    if Py.is_nil w then Some [] else split_or_parse fuel strict w.
Proof.
  intros Hw. rewrite syllabify_S.
  destruct w as [|c w]; [done|].
  rewrite (normalize_plain _ Hw), (plain_not_digit _ Hw).
  destruct (plain_valid _ Hw) as [-> ->].
  assert (Py.isspace c = false) as Hc.
  { apply plain_not_space. simpl in Hw. by apply andb_true_iff in Hw as [? _]. }
  rewrite (PyFacts.strip_cons_nonspace c w Hc). simpl.
  by rewrite andb_false_r.
Qed.

(** The number of nested calls a plain word needs below the first. *)
Definition depth (w : str) : nat :=
  if Py.contains 39 w then 2 else if Py.contains 45 w then 1 else 0.

Lemma split_or_parse_spec (fuel : nat) (strict : bool) (w : str) :
  (forall p, forallb plain p = true -> depth p < fuel ->
             exists l, syllabify fuel strict p = Some l
                       /\ concat l = without_separators p) ->
  forallb plain w = true -> depth w <= fuel ->
  exists l, split_or_parse fuel strict w = Some l
            /\ concat l = without_separators w.
Proof.
  intros IH Hw Hd. unfold split_or_parse. unfold depth in Hd.
  assert (forall sep, is_separator sep = true ->
            Forall (fun p => forallb plain p = true
                             /\ Py.contains sep p = false)
                   (Py.split sep w)) as Hparts.
  { intros sep _. apply Forall_forall. intros p Hp%list_elem_of_In.
    pose proof (split_forallb plain sep w Hw) as H1.
    pose proof (split_no_separator sep w) as H2.
    rewrite forallb_forall in H1, H2.
    split; [by apply H1|]. by apply negb_true_iff, H2. }
  destruct (Py.contains 39 w) eqn:H39.
  - (* split at the apostrophes: the parts have none *)
    assert (exists ls, mapM (syllabify fuel strict) (Py.split 39 w) = Some ls
              /\ Forall2 (fun p l => concat l = without_separators p)
                         (Py.split 39 w) ls) as (ls & -> & Hls).
    { specialize (Hparts 39%N eq_refl).
      induction Hparts as [|p parts [Hp Hno] _ IHp].
      - exists []. split; [done | constructor].
      - destruct IHp as (ls & Hm & Hls).
        destruct (IH p Hp) as (l & Hl & Hc).
        { unfold depth. rewrite Hno. destruct (Py.contains 45 p); lia. }
        exists (l :: ls). split; [|by constructor].
        cbn. rewrite Hl. cbn. by rewrite Hm. }
    eexists. split; [reflexivity|].
    rewrite (concat_parts _ _ Hls). by apply without_separators_split.
  - destruct (Py.contains 45 w) eqn:H45.
    + (* split at the hyphens: the parts have neither separator *)
      assert (exists ls,
                mapM (syllabify fuel strict) (Py.split 45 w) = Some ls
                /\ Forall2 (fun p l => concat l = without_separators p)
                           (Py.split 45 w) ls) as (ls & -> & Hls).
      { specialize (Hparts 45%N eq_refl).
        pose proof (split_forallb (fun x => negb (39 =? x)%N) 45 w
                      (proj1 (contains_false 39 w) H39)) as Hno39.
        rewrite forallb_forall in Hno39.
        assert (Forall (fun p => forallb plain p = true /\ depth p = 0)
                       (Py.split 45 w)) as Hparts'.
        { apply Forall_forall. intros p Hp.
          rewrite Forall_forall in Hparts.
          destruct (Hparts p Hp) as [Hpl Hno]. split; [exact Hpl|].
          unfold depth. rewrite Hno.
          apply list_elem_of_In, Hno39, contains_false in Hp.
          by rewrite Hp. }
        clear Hparts Hno39. induction Hparts' as [|p parts [Hp Hdp] _ IHp].
        - exists []. split; [done | constructor].
        - destruct IHp as (ls & Hm & Hls).
          destruct (IH p Hp) as (l & Hl & Hc); [lia|].
          exists (l :: ls). split; [|by constructor].
          cbn. rewrite Hl. cbn. by rewrite Hm. }
      eexists. split; [reflexivity|].
      rewrite (concat_parts _ _ Hls). by apply without_separators_split.
    + (* no separator: the parse *)
      destruct (parse_spec w) as (l & -> & Hc & _).
      exists l. split; [done|]. rewrite Hc. symmetry.
      apply PyFacts.filter_id, forallb_forall. intros c Hc'.
      apply contains_false in H39, H45. rewrite forallb_forall in H39, H45.
      specialize (H39 c Hc'). specialize (H45 c Hc').
      unfold is_separator. rewrite (N.eqb_sym c 39), (N.eqb_sym c 45).
      apply negb_true_iff in H39, H45. by rewrite H39, H45.
Qed.

Lemma syllabify_plain_spec (fuel : nat) (strict : bool) (w : str) :
  forallb plain w = true -> depth w < fuel ->
  exists l, syllabify fuel strict w = Some l
            /\ concat l = without_separators w.
Proof.
  revert w. induction fuel as [|fuel IH]; intros w Hw Hd; [lia|].
  rewrite (syllabify_plain fuel strict w Hw).
  destruct w as [|c w]; [by exists []|]. cbn [Py.is_nil].
  apply split_or_parse_spec; [exact IH | exact Hw | lia].
Qed.

(** What [syllabify] returns once the checks have passed, and the empty
    list when one of them has not. *)
Lemma syllabify_cases (fuel : nat) (strict : bool) (word : str) :
  syllabify (S fuel) strict word = Some []
  \/ (forallb plain (_normalize_word word) = true
      /\ syllabify (S fuel) strict word
         = split_or_parse fuel strict (_normalize_word word)).
Proof.
  rewrite syllabify_S.
  destruct (_ || _); [by left|].
  destruct (_contains_digit _); [by left|].
  destruct (_is_valid_word (_normalize_word word)) eqn:Hvalid;
    [|by left]. cbn [negb].
  destruct (strict && _); [by left|].
  right. split; [by apply valid_normalized_plain | reflexivity].
Qed.

(** C1, as the code has it: [syllabify] returns for every word.  When the
    list it returns is not empty, its concatenation is the normalized word
    (NFKD, ASCII only, lower case) with the apostrophes and hyphens taken
    out.  When moreover the normalized word has no separator, the list is
    the internal onset-nucleus-coda parse if that parse is not empty and
    spells the normalized word, and the normalized word as a single
    syllable if it does not; either way it spells the normalized word. *)
Theorem syllabify_reconstruction (k : nat) (strict : bool) (word : str) :
  (exists l, syllabify (3 + k) strict word = Some l)
  /\ (forall l,
        syllabify (3 + k) strict word = Some l -> l <> [] ->
        Py.join l = without_separators (_normalize_word word))
  /\ (forall l,
        syllabify (3 + k) strict word = Some l -> l <> [] ->
        Py.contains 39 (_normalize_word word) = false ->
        Py.contains 45 (_normalize_word word) = false ->
        Py.join l = _normalize_word word
        /\ exists syllables,
             internal_parse (_normalize_word word) = Some syllables
             /\ l = if reproduces syllables (_normalize_word word)
                    then syllables else [_normalize_word word]).
Proof.
  change (3 + k) with (S (2 + k)).
  destruct (syllabify_cases (2 + k) strict word) as [->|[Hplain ->]].
  { split; [by eexists|]. split; by intros l [= <-]. }
  destruct (split_or_parse_spec (2 + k) strict (_normalize_word word))
    as (l & Hl & Hc).
  { intros p Hp Hd. by apply syllabify_plain_spec. }
  { exact Hplain. }
  { unfold depth.
    destruct (Py.contains 39 (_normalize_word word)),
      (Py.contains 45 (_normalize_word word)); lia. }
  split; [by eexists|]. split.
  - intros l' Hl' _. rewrite Hl in Hl'. by injection Hl' as <-.
  - intros l' Hl' _ H39 H45. rewrite Hl in Hl'. injection Hl' as <-.
    split.
    + unfold Py.join. rewrite Hc. apply PyFacts.filter_id, forallb_forall.
      intros c Hin. apply contains_false in H39, H45.
      rewrite forallb_forall in H39, H45.
      specialize (H39 c Hin). specialize (H45 c Hin).
      unfold is_separator. rewrite (N.eqb_sym c 39), (N.eqb_sym c 45).
      apply negb_true_iff in H39, H45. by rewrite H39, H45.
    + unfold split_or_parse in Hl. rewrite H39, H45 in Hl.
      destruct (parse_fallback (_normalize_word word)) as (syls & Hi & Hp).
      exists syls. split; [exact Hi|]. rewrite Hp in Hl.
      by injection Hl as <-.
Qed.

End WithUnicode.

#[local] Existing Instance Fragment.tables.

(** C1 at two words of the repository's tests: a hyphenated word, whose
    syllables spell the word without the hyphen, and a word whose internal
    parse, the single syllable [shag], does not spell it, so that the word
    itself is returned. *)
Lemma syllabify_reconstruction_examples :
  Py.join [cps "a"; cps "faan"; cps "a"; cps "faan"]
  = without_separators (_normalize_word (cps "afaan-afaan"))
  /\ (Py.join [cps "shaggy"] = _normalize_word (cps "shaggy")
      /\ exists syllables,
           internal_parse (_normalize_word (cps "shaggy")) = Some syllables
           /\ [cps "shaggy"]
              = if reproduces syllables (_normalize_word (cps "shaggy"))
                then syllables else [_normalize_word (cps "shaggy")]).
Proof.
  split.
  - apply (proj1 (proj2 (syllabify_reconstruction
                           0 false (cps "afaan-afaan"))));
      [vm_compute; reflexivity | discriminate].
  - apply (proj2 (proj2 (syllabify_reconstruction 0 false (cps "shaggy"))));
      [vm_compute; reflexivity | discriminate
      | vm_compute; reflexivity | vm_compute; reflexivity].
Defined.

(** The internal parse of [shaggy] is the one syllable [shag]. *)
Lemma internal_parse_shaggy :
  internal_parse (cps "shaggy") = Some [cps "shag"].
Proof. vm_compute. reflexivity. Qed.

(** C1 as stated fails at a word with an apostrophe, the word of the
    repository's own test: the syllables leave the apostrophe out, so they
    do not spell the normalized word. *)
Lemma syllabify_dha_ii :
  syllabify 3 false (cps "dha'ii") = Some [cps "dha"; cps "ii"]
  /\ _normalize_word (cps "dha'ii") = cps "dha'ii"
  /\ Py.join [cps "dha"; cps "ii"] <> _normalize_word (cps "dha'ii").
Proof. decide_by_compute. Qed.

End SyllabifierFacts.

(** ** The normalizer *)

Module NormalizerFacts.
Import TextNormalizer.

(** *** White space *)

(** A string in which every white-space character is a single space that
    follows no other white space; [prev_space] tells whether white space
    precedes the string. *)
Fixpoint tidy (prev_space : bool) (s : str) : bool :=
  match s with
  | [] => true
  | c :: s' =>
      if Py.isspace c
      then (c =? 32)%N && negb prev_space && tidy true s'
      else tidy false s'
  end.

Lemma collapse_tidy (b : bool) (s : str) : tidy b (collapse_spaces b s) = true.
Proof.
  revert b. induction s as [|c s IH]; intros b; [done|].
  cbn [collapse_spaces]. destruct (Py.isspace c) eqn:Hc.
  - destruct b; [apply IH|]. cbn [tidy].
    change (Py.isspace 32) with true. by rewrite IH.
  - cbn [tidy]. by rewrite Hc.
Qed.

Lemma tidy_collapse (b : bool) (s : str) :
  tidy b s = true -> collapse_spaces b s = s.
Proof.
  revert b. induction s as [|c s IH]; intros b; [done|].
  cbn [tidy collapse_spaces]. destruct (Py.isspace c).
  - intros [[Hc Hb]%andb_true_iff Hs]%andb_true_iff.
    apply N.eqb_eq in Hc as ->. apply negb_true_iff in Hb as ->.
    by rewrite (IH true Hs).
  - intros Hs. by rewrite (IH false Hs).
Qed.

Lemma tidy_weaken (b : bool) (s : str) : tidy b s = true -> tidy false s = true.
Proof.
  destruct s as [|c s]; [done|]. cbn [tidy]. destruct (Py.isspace c); [|done].
  intros [[-> _]%andb_true_iff ->]%andb_true_iff. done.
Qed.

Lemma tidy_lstrip (s : str) : tidy false s = true -> tidy false (Py.lstrip s) = true.
Proof.
  induction s as [|c s IH]; [done|]. cbn [Py.lstrip].
  destruct (Py.isspace c) eqn:Hc; [|done].
  cbn [tidy]. rewrite Hc. intros [_ Hs]%andb_true_iff.
  by apply IH, (tidy_weaken true).
Qed.

Lemma tidy_rstrip (b : bool) (s : str) :
  tidy b s = true -> tidy b (Py.rstrip s) = true.
Proof.
  revert b. induction s as [|c s IH]; intros b; [done|].
  cbn [Py.rstrip tidy]. destruct (Py.isspace c) eqn:Hc.
  - intros [Hb Hs]%andb_true_iff.
    destruct (Py.is_nil (Py.rstrip s)); [done|]. cbn [andb tidy].
    by rewrite Hc, Hb, (IH true Hs).
  - intros Hs. cbn [andb tidy]. by rewrite Hc, (IH false Hs).
Qed.

Lemma rstrip_idem (s : str) : Py.rstrip (Py.rstrip s) = Py.rstrip s.
Proof.
  induction s as [|c s IH]; [done|]. cbn [Py.rstrip].
  destruct (Py.isspace c && Py.is_nil (Py.rstrip s)) eqn:E; [done|].
  cbn [Py.rstrip]. by rewrite IH, E.
Qed.

Lemma lstrip_head (s : str) :
  Py.lstrip s = []
  \/ exists c s', Py.lstrip s = c :: s' /\ Py.isspace c = false.
Proof.
  induction s as [|c s IH]; [by left|]. cbn [Py.lstrip].
  destruct (Py.isspace c) eqn:Hc; [exact IH|]. right. eauto.
Qed.

Lemma rstrip_cons_nonspace (c : N) (s : str) :
  Py.isspace c = false -> Py.rstrip (c :: s) = c :: Py.rstrip s.
Proof. intros Hc. cbn [Py.rstrip]. by rewrite Hc. Qed.

Lemma strip_idem (s : str) : Py.strip (Py.strip s) = Py.strip s.
Proof.
  unfold Py.strip. destruct (lstrip_head s) as [->|(c & s' & -> & Hc)];
    [done|].
  rewrite (rstrip_cons_nonspace c s' Hc). cbn [Py.lstrip]. rewrite Hc.
  by rewrite (rstrip_cons_nonspace c _ Hc), rstrip_idem.
Qed.

(** Step 10 is idempotent. *)
Lemma strip_collapse_idem (s : str) :
  Py.strip (collapse_spaces false (Py.strip (collapse_spaces false s)))
  = Py.strip (collapse_spaces false s).
Proof.
  rewrite (tidy_collapse false (Py.strip (collapse_spaces false s))).
  - apply strip_idem.
  - unfold Py.strip. apply tidy_rstrip, tidy_lstrip, collapse_tidy.
Qed.

Lemma forallb_collapse (P : N -> bool) (b : bool) (s : str) :
  P 32%N = true -> forallb P s = true ->
  forallb P (collapse_spaces b s) = true.
Proof.
  intros H32. revert b. induction s as [|c s IH]; intros b; [done|].
  cbn [forallb collapse_spaces]. intros [Hc Hs]%andb_true_iff.
  destruct (Py.isspace c); [destruct b|]; cbn [forallb];
    rewrite ?H32, ?Hc; by apply IH.
Qed.

Lemma forallb_lstrip (P : N -> bool) (s : str) :
  forallb P s = true -> forallb P (Py.lstrip s) = true.
Proof.
  induction s as [|c s IH]; [done|]. cbn [Py.lstrip].
  destruct (Py.isspace c); [|done].
  cbn [forallb]. intros [_ Hs]%andb_true_iff. by apply IH.
Qed.

Lemma forallb_rstrip (P : N -> bool) (s : str) :
  forallb P s = true -> forallb P (Py.rstrip s) = true.
Proof.
  induction s as [|c s IH]; [done|]. cbn [Py.rstrip forallb].
  intros [Hc Hs]%andb_true_iff.
  destruct (Py.isspace c && Py.is_nil (Py.rstrip s)); [done|].
  cbn [forallb]. by rewrite Hc, IH.
Qed.

Lemma forallb_strip (P : N -> bool) (s : str) :
  forallb P s = true -> forallb P (Py.strip s) = true.
Proof. intros H. by apply forallb_rstrip, forallb_lstrip. Qed.

(** *** Replacing one character *)

Lemma startswith_singleton (c k : N) (s : str) :
  Py.startswith (c :: s) [k] = (k =? c)%N.
Proof.
  unfold Py.startswith. destruct (N.eqb_spec k c) as [->|Hne].
  - apply bool_decide_eq_true_2. by exists s.
  - apply bool_decide_eq_false_2. intros [s' [= <- _]]. done.
Qed.

Lemma replace_char (a : N) (new : str) (s : str) :
  Py.replace [a] new s
  = flat_map (fun c => if (a =? c)%N then new else [c]) s.
Proof.
  unfold Py.replace. induction s as [|c s IH]; [done|].
  cbn [Py.replace_from flat_map]. rewrite startswith_singleton.
  cbn [length Nat.sub]. rewrite IH. by destruct (a =? c)%N.
Qed.

Lemma replace_absent (a : N) (new : str) (s : str) :
  forallb (fun c => negb (a =? c)%N) s = true -> Py.replace [a] new s = s.
Proof.
  rewrite replace_char. induction s as [|c s IH]; [done|].
  cbn [forallb flat_map]. intros [Hc Hs]%andb_true_iff.
  apply negb_true_iff in Hc as ->. by rewrite (IH Hs).
Qed.

Lemma ascii_differs (a : N) (s : str) :
  (128 <= a)%N -> forallb Py.is_ascii s = true ->
  forallb (fun c => negb (a =? c)%N) s = true.
Proof.
  intros Ha Hs. apply forallb_forall. intros c Hc.
  rewrite forallb_forall in Hs. specialize (Hs c Hc).
  unfold Py.is_ascii in Hs. apply N.ltb_lt in Hs.
  apply negb_true_iff, N.eqb_neq. lia.
Qed.

Lemma flat_map_singleton {A B} (f : A -> B) (l : list A) :
  flat_map (fun x => [f x]) l = map f l.
Proof. induction l as [|x l IH]; simpl; by rewrite ?IH. Qed.

Lemma filter_true {A} (l : list A) : List.filter (fun _ => true) l = l.
Proof. induction l as [|x l IH]; simpl; by rewrite ?IH. Qed.

(** *** The pipeline on ASCII text

    On ASCII text steps 1 to 5 change nothing, and steps 6 to 10 are three
    filters, two maps and the white-space cleanup; which of them run is
    read from the configuration, character by character. *)

(** What step 8 keeps: word characters, white space, the apostrophe. *)
Definition keep_special (c : N) : bool :=
  Py.ascii_letter c || Py.ascii_digit c || (c =? 95)%N
  || Py.isspace c || (c =? 39)%N.

Definition keeps6 (cfg : config) (c : N) : bool :=
  negb (remove_numbers cfg) || negb (Py.ascii_digit c).
Definition keeps7 (cfg : config) (c : N) : bool :=
  negb (remove_punctuation cfg) || negb (Py.contains c (cps ".,!?;:")).
Definition maps8 (cfg : config) (c : N) : N :=
  if remove_special_chars cfg && (45 =? c)%N then 32%N else c.
Definition keeps8 (cfg : config) (c : N) : bool :=
  negb (remove_special_chars cfg) || keep_special c.
Definition maps9 (cfg : config) (c : N) : N :=
  if normalize_case cfg && negb (preserve_case cfg) then Py.ascii_upper c
  else c.

Definition steps6to9 (cfg : config) (t : str) : str :=
  map (maps9 cfg)
    (List.filter (keeps8 cfg)
       (map (maps8 cfg)
          (List.filter (keeps7 cfg) (List.filter (keeps6 cfg) t)))).

Definition step10 (cfg : config) (t : str) : str :=
  if remove_extra_spaces cfg then Py.strip (collapse_spaces false t) else t.

Definition ascii_normalize (cfg : config) (t : str) : str :=
  step10 cfg (steps6to9 cfg t).

(** A character that steps 6 to 9 leave in place and unchanged. *)
Definition settled (cfg : config) (c : N) : bool :=
  Py.is_ascii c && keeps6 cfg c && keeps7 cfg c && keeps8 cfg c
  && (maps8 cfg c =? c)%N && (maps9 cfg c =? c)%N.

Lemma steps_settle (cfg : config) (c : N) :
  Py.is_ascii c = true ->
  implb (keeps6 cfg c && keeps7 cfg c && keeps8 cfg (maps8 cfg c))
        (settled cfg (maps9 cfg (maps8 cfg c))) = true.
Proof.
  destruct cfg as [nc pc rd rn rp rs sp es].
  unfold settled, keeps6, keeps7, keeps8, maps8, maps9.
  cbn [normalize_case preserve_case remove_numbers remove_punctuation
       remove_special_chars].
  intros Hc. revert c Hc.
  destruct nc, pc, rn, rp, rs; apply ascii_forall; vm_compute; reflexivity.
Qed.

Lemma space_settled (cfg : config) : settled cfg 32%N = true.
Proof.
  destruct cfg as [nc pc rd rn rp rs sp es].
  destruct nc, pc, rn, rp, rs; reflexivity.
Qed.

Lemma settled_parts (cfg : config) (c : N) :
  settled cfg c = true ->
  Py.is_ascii c = true /\ keeps6 cfg c = true /\ keeps7 cfg c = true
  /\ keeps8 cfg c = true /\ maps8 cfg c = c /\ maps9 cfg c = c.
Proof.
  unfold settled. rewrite !andb_true_iff, !N.eqb_eq. tauto.
Qed.

Lemma steps6to9_settled (cfg : config) (t : str) :
  forallb Py.is_ascii t = true ->
  forallb (settled cfg) (steps6to9 cfg t) = true.
Proof.
  intros Ha. apply forallb_forall. intros c' Hc'. unfold steps6to9 in Hc'.
  apply in_map_iff in Hc' as (x & <- & Hx).
  apply filter_In in Hx as [Hx H8].
  apply in_map_iff in Hx as (c & <- & Hc).
  apply filter_In in Hc as [Hc H7]. apply filter_In in Hc as [Hc H6].
  rewrite forallb_forall in Ha.
  pose proof (steps_settle cfg c (Ha c Hc)) as H.
  by rewrite H6, H7, H8 in H.
Qed.

Lemma steps6to9_fixed (cfg : config) (t : str) :
  forallb (settled cfg) t = true -> steps6to9 cfg t = t.
Proof.
  intros Hs. rewrite forallb_forall in Hs.
  assert (forall c, In c t ->
            keeps6 cfg c = true /\ keeps7 cfg c = true
            /\ keeps8 cfg c = true /\ maps8 cfg c = c /\ maps9 cfg c = c)
    as H.
  { intros c Hc. apply Hs, settled_parts in Hc. tauto. }
  unfold steps6to9.
  rewrite (PyFacts.filter_id (keeps6 cfg) t)
    by (apply forallb_forall; intros c Hc; by apply H).
  rewrite (PyFacts.filter_id (keeps7 cfg) t)
    by (apply forallb_forall; intros c Hc; by apply H).
  rewrite (map_ext_in (maps8 cfg) id) by (intros c Hc; by apply H).
  rewrite map_id.
  rewrite (PyFacts.filter_id (keeps8 cfg) t)
    by (apply forallb_forall; intros c Hc; by apply H).
  rewrite (map_ext_in (maps9 cfg) id) by (intros c Hc; by apply H).
  apply map_id.
Qed.

Lemma step10_settled (cfg : config) (t : str) :
  forallb (settled cfg) t = true -> forallb (settled cfg) (step10 cfg t) = true.
Proof.
  intros Hs. unfold step10. destruct (remove_extra_spaces cfg); [|done].
  apply forallb_strip, forallb_collapse; [apply space_settled | done].
Qed.

Lemma step10_idem (cfg : config) (t : str) :
  step10 cfg (step10 cfg t) = step10 cfg t.
Proof.
  unfold step10. destruct (remove_extra_spaces cfg); [|done].
  apply strip_collapse_idem.
Qed.

Lemma ascii_normalize_settled (cfg : config) (t : str) :
  forallb Py.is_ascii t = true ->
  forallb (settled cfg) (ascii_normalize cfg t) = true.
Proof. intros Ha. by apply step10_settled, steps6to9_settled. Qed.

Lemma settled_ascii (cfg : config) (t : str) :
  forallb (settled cfg) t = true -> forallb Py.is_ascii t = true.
Proof.
  intros Hs. apply forallb_forall. intros c Hc.
  rewrite forallb_forall in Hs. by apply Hs, settled_parts in Hc as [? _].
Qed.

Lemma ascii_normalize_idem (cfg : config) (t : str) :
  forallb Py.is_ascii t = true ->
  ascii_normalize cfg (ascii_normalize cfg t) = ascii_normalize cfg t.
Proof.
  intros Ha. unfold ascii_normalize at 1.
  rewrite (steps6to9_fixed cfg _ (ascii_normalize_settled cfg t Ha)).
  apply step10_idem.
Qed.

Lemma zero_width_ascii (t : str) :
  forallb Py.is_ascii t = true ->
  map (fun c => if is_zero_width c then 32%N else c) t = t.
Proof.
  intros Ha. rewrite <- (map_id t) at 2. apply map_ext_in. intros c Hc.
  rewrite forallb_forall in Ha.
  pose proof (ascii_forall (fun c => negb (is_zero_width c)) eq_refl c
                (Ha c Hc)) as H.
  cbv beta in H. by apply negb_true_iff in H as ->.
Qed.

Lemma punct_map_ascii (t : str) :
  forallb Py.is_ascii t = true ->
  foldl (fun t kv => Py.replace kv.1 kv.2 t) t _punct_map = t.
Proof.
  intros Ha. unfold _punct_map. cbn [foldl fst snd].
  do 7 (rewrite (replace_absent _ _ t) by (by apply ascii_differs)).
  reflexivity.
Qed.

Lemma normalize_diacritics_ascii (t : str) :
  forallb Py.is_ascii t = true -> QubeeAlphabet.normalize_diacritics t = t.
Proof.
  intros Ha. unfold QubeeAlphabet.normalize_diacritics.
  rewrite <- (map_id t) at 2. apply map_ext_in. intros c Hc.
  rewrite forallb_forall in Ha.
  assert (forallb
            (fun c => match QubeeAlphabet.DIACRITICS !! c with
                      | None => true
                      | Some _ => false
                      end)
            (map N.of_nat (seq 0 128)) = true) as Hall
    by (vm_compute; reflexivity).
  pose proof (ascii_forall _ Hall c (Ha c Hc)) as H. cbv beta in H.
  by destruct (QubeeAlphabet.DIACRITICS !! c).
Qed.

Lemma hyphens_to_spaces (cfg : config) (t : str) :
  remove_special_chars cfg = true ->
  Py.replace (cps "-") (cps " ") t = map (maps8 cfg) t.
Proof.
  intros Hs. change (cps "-") with [45%N]. rewrite replace_char.
  rewrite <- flat_map_singleton. apply flat_map_ext. intros c.
  unfold maps8. rewrite Hs. cbn [andb]. by destruct (45 =? c)%N.
Qed.

Section WithUnicode.
Context `{U : Unicode}.

Lemma strip_diacritics_ascii (t : str) :
  forallb Py.is_ascii t = true -> _strip_diacritics t = t.
Proof.
  intros Ha. unfold _strip_diacritics. rewrite (nfd_ascii t Ha).
  apply PyFacts.filter_id, forallb_forall. intros c Hc.
  rewrite forallb_forall in Ha. by rewrite (combining_ascii c (Ha c Hc)).
Qed.

Lemma filter_ascii_ext (p q : N -> bool) (t : str) :
  forallb Py.is_ascii t = true ->
  (forall c, Py.is_ascii c = true -> p c = q c) ->
  List.filter p t = List.filter q t.
Proof.
  intros Ha Hpq. induction t as [|c t IH]; [done|].
  cbn [forallb] in Ha. apply andb_true_iff in Ha as [Hc Ht].
  cbn [List.filter]. by rewrite (Hpq c Hc), (IH Ht).
Qed.

Lemma forallb_filter (P p : N -> bool) (t : str) :
  forallb P t = true -> forallb P (List.filter p t) = true.
Proof.
  rewrite !forallb_forall. intros H c [Hc _]%filter_In. by apply H.
Qed.

(** Steps 1 to 5 of [normalize]: NFC, zero-width characters, punctuation
    symbols, Qubee diacritics and, on request, combining accents. *)
Definition steps1to5 (cfg : config) (text : str) : str :=
  let t := nfc text in
  let t := map (fun c => if is_zero_width c then 32%N else c) t in
  let t :=
    if standardize_punctuation cfg
    then foldl (fun t kv => Py.replace kv.1 kv.2 t) t _punct_map
    else t in
  let t := QubeeAlphabet.normalize_diacritics t in
  if remove_diacritics cfg then _strip_diacritics t else t.

(** Steps 6 to 10: numbers, punctuation, special characters, case and
    white space. *)
Definition steps6to10 (cfg : config) (t : str) : str :=
  let t :=
    if remove_numbers cfg
    then List.filter (fun c => negb (re_digit c)) t else t in
  let t :=
    if remove_punctuation cfg
    then List.filter (fun c => negb (Py.contains c (cps ".,!?;:"))) t
    else t in
  let t :=
    if remove_special_chars cfg
    then List.filter
           (fun c => re_word c || Py.isspace c || (c =? 39)%N)
           (Py.replace (cps "-") (cps " ") t)
    else t in
  let t :=
    if normalize_case cfg && negb (preserve_case cfg) then upper t
    else t in
  if remove_extra_spaces cfg then Py.strip (collapse_spaces false t)
  else t.

(** [normalize] is the ten steps in order, on a text that is not empty. *)
Lemma normalize_steps (cfg : config) (text : str) :
  normalize cfg text =
    if Py.is_nil text then [] else steps6to10 cfg (steps1to5 cfg text).
Proof. reflexivity. Qed.

(** On ASCII text steps 1 to 5 change nothing. *)
Lemma steps1to5_ascii (cfg : config) (t : str) :
  forallb Py.is_ascii t = true -> steps1to5 cfg t = t.
Proof.
  intros Ha. unfold steps1to5.
  rewrite (nfc_ascii t Ha), (zero_width_ascii t Ha).
  assert ((if standardize_punctuation cfg
           then foldl (fun t kv => Py.replace kv.1 kv.2 t) t _punct_map
           else t) = t) as ->
    by (destruct (standardize_punctuation cfg);
        [by apply punct_map_ascii | done]).
  rewrite (normalize_diacritics_ascii t Ha).
  destruct (remove_diacritics cfg); [by apply strip_diacritics_ascii | done].
Qed.

(** On ASCII text steps 6 to 10 are the ASCII pipeline. *)
Lemma steps6to10_ascii (cfg : config) (t : str) :
  forallb Py.is_ascii t = true -> steps6to10 cfg t = ascii_normalize cfg t.
Proof.
  intros Ha. unfold steps6to10, ascii_normalize.
  (* step 6 *)
  assert ((if remove_numbers cfg
           then List.filter (fun c => negb (re_digit c)) t else t)
          = List.filter (keeps6 cfg) t) as ->.
  { unfold keeps6. destruct (remove_numbers cfg); cbn [negb orb].
    - apply filter_ascii_ext; [done|]. intros c Hc.
      by rewrite (re_digit_ascii c Hc).
    - by rewrite filter_true. }
  set (t6 := List.filter (keeps6 cfg) t).
  assert (forallb Py.is_ascii t6 = true) as Ha6 by by apply forallb_filter.
  (* step 7 *)
  assert ((if remove_punctuation cfg
           then List.filter
                  (fun c => negb (Py.contains c (cps ".,!?;:"))) t6
           else t6)
          = List.filter (keeps7 cfg) t6) as ->.
  { unfold keeps7. destruct (remove_punctuation cfg); cbn [negb orb];
      [done | by rewrite filter_true]. }
  set (t7 := List.filter (keeps7 cfg) t6).
  assert (forallb Py.is_ascii t7 = true) as Ha7 by by apply forallb_filter.
  (* step 8 *)
  assert (forallb Py.is_ascii (map (maps8 cfg) t7) = true) as Ha8.
  { apply forallb_forall. intros c' (c & <- & Hc)%in_map_iff.
    rewrite forallb_forall in Ha7. specialize (Ha7 c Hc).
    unfold maps8. by destruct (_ && _). }
  assert ((if remove_special_chars cfg
           then List.filter
                  (fun c => re_word c || Py.isspace c || (c =? 39)%N)
                  (Py.replace (cps "-") (cps " ") t7)
           else t7)
          = List.filter (keeps8 cfg) (map (maps8 cfg) t7)) as ->.
  { unfold keeps8. destruct (remove_special_chars cfg) eqn:Hs;
      cbn [negb orb].
    - rewrite (hyphens_to_spaces cfg t7 Hs).
      apply filter_ascii_ext; [done|]. intros c Hc.
      unfold keep_special. by rewrite (re_word_ascii c Hc).
    - rewrite filter_true. rewrite <- (map_id t7) at 1.
      apply map_ext. intros c. unfold maps8. by rewrite Hs. }
  set (t8 := List.filter (keeps8 cfg) (map (maps8 cfg) t7)).
  assert (forallb Py.is_ascii t8 = true) as Ha8' by by apply forallb_filter.
  (* step 9 *)
  assert ((if normalize_case cfg && negb (preserve_case cfg)
           then upper t8 else t8)
          = map (maps9 cfg) t8) as ->.
  { unfold maps9. destruct (normalize_case cfg && negb (preserve_case cfg)).
    - by apply upper_ascii.
    - by rewrite map_id. }
  reflexivity.
Qed.

(** C4, as the code has it: for every configuration, [normalize] is
    idempotent on every text that its first five steps (NFC, zero-width
    characters, punctuation symbols, diacritic folding and, on request,
    the removal of combining marks) turn into ASCII text: two passes give
    what one pass gives. *)
Theorem normalize_idempotent (cfg : config) (text : str) :
  forallb Py.is_ascii (steps1to5 cfg text) = true ->
  normalize cfg (normalize cfg text) = normalize cfg text.
Proof.
  intros Ha. rewrite (normalize_steps cfg text).
  destruct (Py.is_nil text); [reflexivity|].
  rewrite (steps6to10_ascii cfg _ Ha).
  pose proof (ascii_normalize_settled cfg _ Ha) as Hs.
  pose proof (settled_ascii cfg _ Hs) as Ha'.
  rewrite normalize_steps, (steps1to5_ascii cfg _ Ha').
  rewrite (steps6to10_ascii cfg _ Ha'), (ascii_normalize_idem cfg _ Ha).
  by destruct (ascii_normalize cfg (steps1to5 cfg text)).
Qed.

End WithUnicode.

#[local] Existing Instance Fragment.tables.

(** C4 at a text with accented vowels, a zero-width space and a curly
    apostrophe, U+00C1 f U+00E1 a n U+200B r e U+2019 U+00E9: the first five
    steps make it ASCII, and the second pass changes nothing. *)
Lemma normalize_idempotent_accents :
  normalize default
    (normalize default
       [0xC1; 0x66; 0xE1; 0x61; 0x6E; 0x200B; 0x72; 0x65; 0x2019; 0xE9]%N)
  = normalize default
      [0xC1; 0x66; 0xE1; 0x61; 0x6E; 0x200B; 0x72; 0x65; 0x2019; 0xE9]%N.
Proof.
  apply (normalize_idempotent default
           [0xC1; 0x66; 0xE1; 0x61; 0x6E; 0x200B; 0x72; 0x65; 0x2019; 0xE9]%N).
  vm_compute. reflexivity.
Defined.

(** What one pass makes of that text: AFAAN RE'E. *)
Lemma normalize_accents :
  normalize default
    [0xC1; 0x66; 0xE1; 0x61; 0x6E; 0x200B; 0x72; 0x65; 0x2019; 0xE9]%N
  = cps "AFAAN RE'E".
Proof. vm_compute. reflexivity. Qed.

(** C4 as stated fails at U+00E1 U+0301, an accented vowel followed by a
    combining acute accent, under the default configuration.  NFC leaves
    the pair alone and step 4 folds the vowel, so the first pass returns A
    followed by U+0301; in the second pass NFC composes that pair into
    U+00C1, which step 4 folds to a bare A. *)
Lemma normalize_twice_differs :
  normalize default [0xE1; 0x301]%N = [0x41; 0x301]%N
  /\ normalize default (normalize default [0xE1; 0x301]%N) = [0x41]%N.
Proof. decide_by_compute. Qed.

End NormalizerFacts.
